(** * Prompt resolution and conversation persistence of the LiveKit agent backend

    A shallow embedding of [src/promptManager.js] ([generatePrompt] with its
    helpers [toStringPrompt] and [manualCompile], and the module's top level,
    which decides whether a Langfuse client exists), of the handler of
    [POST /api/conversations] in [src/index.ts] and of [insertConversation] in
    [src/db.ts], followed by the proofs of what the specification says about
    them.

    How the program is modelled:
    - a JavaScript value is a [JsVal]; an object used as a mapping is a
      finite map from property names to values; a number is kept by its
      string form, and strings have their code units below 256;
    - an expression or call that may throw returns a [Completion];
    - [generatePrompt], which calls the prompt service and writes to the
      console, threads the list of [Event]s produced so far; the service is a
      function of that list, so a second call may be answered differently;
    - what the code takes from the JavaScript runtime without defining it,
      [JSON.parse] and the members that values inherit from the built-in
      prototypes, is a parameter, [Runtime]; a statement holds for every
      runtime unless it names one;
    - the table [conversations] is a finite map from uuids, in the spelling
      the database prints them in, to rows. *)

From Stdlib Require Import ZArith Ascii String List Lia.
From Stdlib Require Import Numbers.DecimalString.
From stdpp Require Import base option gmap strings list.

(** ** Code units and strings

    A JavaScript string is a sequence of UTF-16 code units.  The model keeps
    the code units below 256, one [ascii] each, so a [string] of Rocq is a
    JavaScript string over that range. *)

Module Chars.

Definition code (c : ascii) : N := N_of_ascii c.

Definition between (lo hi : N) (c : ascii) : bool :=
  (lo <=? code c)%N && (code c <=? hi)%N.

(** [\s] of a regular expression, and the characters [trim] removes: tab,
    line feed, vertical tab, form feed, carriage return, space and the
    no-break space. *)
Definition is_space (c : ascii) : bool :=
  between 9 13 c || (code c =? 32)%N || (code c =? 160)%N.

(** [\w]: ASCII letters, digits and the underscore. *)
Definition is_word (c : ascii) : bool :=
  between 48 57 c || between 65 90 c || between 97 122 c || (code c =? 95)%N.

(** The character class [[\w.]] of the placeholder's capture group. *)
Definition is_keychar (c : ascii) : bool :=
  is_word c || (code c =? 46)%N.

Definition is_digit (c : ascii) : bool := between 48 57 c.

End Chars.

Module Str.

Import Chars.

Fixpoint takeWhile (p : ascii -> bool) (s : string) : string :=
  match s with
  | EmptyString => EmptyString
  | String c s' => if p c then String c (takeWhile p s') else EmptyString
  end.

Fixpoint dropWhile (p : ascii -> bool) (s : string) : string :=
  match s with
  | EmptyString => EmptyString
  | String c s' => if p c then dropWhile p s' else s
  end.

Fixpoint all (p : ascii -> bool) (s : string) : bool :=
  match s with
  | EmptyString => true
  | String c s' => p c && all p s'
  end.

Definition is_empty (s : string) : bool :=
  match s with EmptyString => true | String _ _ => false end.

(** [String.prototype.trim]: white space is removed from both ends.  The end
    is trimmed by dropping a character when everything from it on is white
    space. *)
Fixpoint trimEnd (s : string) : string :=
  match s with
  | EmptyString => EmptyString
  | String c s' => if all is_space s then EmptyString else String c (trimEnd s')
  end.

Definition trimStart (s : string) : string := dropWhile is_space s.

Definition trim (s : string) : string := trimEnd (trimStart s).

(** [s.split(sep)] for a one-character separator: the pieces between the
    occurrences of [sep], empty pieces included; never the empty list. *)
Fixpoint split (sep : ascii) (s : string) : list string :=
  match s with
  | EmptyString => [EmptyString]
  | String c s' =>
      if Ascii.eqb c sep then EmptyString :: split sep s'
      else match split sep s' with
           | piece :: pieces => String c piece :: pieces
           | [] => [String c EmptyString]
           end
  end.

(** The decimal numeral of an integer.  It is the string form of the integers
    below [10^21] in magnitude, the lengths of strings and arrays among
    them. *)
Definition of_Z (n : Z) : string := NilZero.string_of_int (Z.to_int n).

(** The array index a property name denotes, if it is one: a decimal numeral
    without sign or leading zero. *)
Fixpoint digits_value (acc : nat) (s : string) : nat :=
  match s with
  | EmptyString => acc
  | String c s' => digits_value (10 * acc + (N.to_nat (code c) - 48)) s'
  end.

Definition index_of (k : string) : option nat :=
  match k with
  | EmptyString => None
  | String c rest =>
      if all is_digit k && (is_empty rest || negb (Ascii.eqb c "0"))
      then Some (digits_value 0 k) else None
  end.

Fixpoint nth_char (i : nat) (s : string) : option ascii :=
  match s, i with
  | EmptyString, _ => None
  | String c _, O => Some c
  | String _ s', S j => nth_char j s'
  end.

End Str.

(** ** JavaScript values

    [JNum] carries the string form of a number, what [String] prints for it:
    ["3"], ["-0.5"], ["1e+21"], ["NaN"].  The code converts numbers to strings
    and tests them for truth, and never computes with them; the string form
    tells the numbers apart, but for the two zeros, which both print as
    ["0"].  [JObj] is an ordinary object seen through
    its own properties, which hold data, as in an object that [JSON.parse]
    built; [JArr] is an array of its elements.  [JFun] is a function value,
    which the code below can only meet by reading a member that a value
    inherits from a built-in prototype (such as [constructor]); it carries the
    text [String] prints for it. *)

#[warnings="-register-all"]
Inductive JsVal : Type :=
| JUndefined
| JNull
| JBool (b : bool)
| JNum (printed : string)
| JStr (s : string)
| JArr (elems : list JsVal)
| JObj (props : gmap string JsVal)
| JFun (src : string).

(** What a [throw] carries. *)
Inductive Exn : Type :=
| Error (message : string)
| TypeError (message : string)
| SyntaxError (message : string)
| ServiceError (detail : string).

(** The outcome of evaluating an expression or a call. *)
Inductive Completion (A : Type) : Type :=
| Normal (a : A)
| Throw (e : Exn).

Arguments Normal {A} a.
Arguments Throw {A} e.

Definition cbind {A B} (c : Completion A) (k : A -> Completion B) : Completion B :=
  match c with
  | Normal a => k a
  | Throw e => Throw e
  end.

Definition cmap {A B} (f : A -> B) (c : Completion A) : Completion B :=
  cbind c (fun a => Normal (f a)).

Declare Scope js_scope.
Delimit Scope js_scope with js.
Notation "x <- c ;; k" := (cbind c (fun x => k))
  (at level 100, c at next level, right associativity) : js_scope.
Local Open Scope js_scope.

(** The part of the JavaScript runtime that the repository's code calls into
    and that is not its own: [JSON.parse], and the lookup of a property that
    is not an own data property of the value, which goes through the chain of
    built-in prototypes ([Object.prototype], [String.prototype], ...).  The
    lookup answers [JUndefined] when no prototype has the property. *)
Record Runtime : Type := {
  JSON_parse : string -> Completion JsVal;
  inherited : JsVal -> string -> Completion JsVal;
}.

Module Js.

(** [Boolean(v)], the test of [if], [!], [&&], [||] and [?:]. *)
Definition truthy (v : JsVal) : bool :=
  match v with
  | JUndefined | JNull => false
  | JBool b => b
  | JNum printed => negb (String.eqb printed "0" || String.eqb printed "NaN")
  | JStr s => negb (Str.is_empty s)
  | JArr _ | JObj _ | JFun _ => true
  end.

(** [typeof v]. *)
Definition typeof (v : JsVal) : string :=
  match v with
  | JUndefined => "undefined"
  | JNull => "object"
  | JBool _ => "boolean"
  | JNum _ => "number"
  | JStr _ => "string"
  | JArr _ | JObj _ => "object"
  | JFun _ => "function"
  end.

(** [v === undefined || v === null]. *)
Definition nullish (v : JsVal) : bool :=
  match v with JUndefined | JNull => true | _ => false end.

(** [a ?? b] and [a || b]. *)
Definition coalesce (a b : JsVal) : JsVal := if nullish a then b else a.
Definition or_else (a b : JsVal) : JsVal := if truthy a then a else b.

(** [v === s] for a string literal [s]. *)
Definition is_string (s : string) (v : JsVal) : bool :=
  match v with JStr t => String.eqb t s | _ => false end.

(** [String(v)].  An array prints its elements separated by commas, with
    [undefined] and [null] printed as nothing.  An ordinary object prints as
    [[object Object]] through the [toString] it inherits; when it has an own
    data property of that name, nothing callable converts it and the
    conversion throws. *)
Fixpoint ToString (v : JsVal) : Completion string :=
  match v with
  | JUndefined => Normal "undefined"
  | JNull => Normal "null"
  | JBool b => Normal (if b then "true" else "false")
  | JNum printed => Normal printed
  | JStr s => Normal s
  | JArr elems =>
      cmap (String.concat ",")
        ((fix each (l : list JsVal) : Completion (list string) :=
            match l with
            | [] => Normal []
            | e :: l' =>
                s <- (if nullish e then Normal "" else ToString e) ;;
                ss <- each l' ;;
                Normal (s :: ss)
            end) elems)
  | JObj props =>
      match props !! "toString" with
      | None => Normal "[object Object]"
      | Some _ => Throw (TypeError "Cannot convert object to primitive value")
      end
  | JFun src => Normal src
  end.

(** [v[k]] for a string [k]: the value's own property when it has one (a key
    of an object; an index or [length] of an array or of a string), the
    runtime's answer for the prototype chain otherwise.  Reading a property
    of [undefined] or [null] throws. *)
Definition get (rt : Runtime) (v : JsVal) (k : string) : Completion JsVal :=
  match v with
  | JUndefined | JNull =>
      Throw (TypeError "Cannot read properties of undefined or null")
  | JObj props =>
      match props !! k with
      | Some x => Normal x
      | None => inherited rt v k
      end
  | JArr elems =>
      if String.eqb k "length" then Normal (JNum (Str.of_Z (Z.of_nat (length elems))))
      else match Str.index_of k ≫= (elems !!.) with
           | Some x => Normal x
           | None => inherited rt v k
           end
  | JStr s =>
      if String.eqb k "length" then Normal (JNum (Str.of_Z (Z.of_nat (String.length s))))
      else match Str.index_of k ≫= (fun i => Str.nth_char i s) with
           | Some c => Normal (JStr (String c EmptyString))
           | None => inherited rt v k
           end
  | JBool _ | JNum _ | JFun _ => inherited rt v k
  end.

End Js.

(** ** Regular expressions

    The constructs that the pattern of [manualCompile] is built from, with
    the matching of a backtracking engine: a quantifier takes the longest run
    first and gives back one character at a time while the rest of the
    pattern fails. *)

Module Regex.

Inductive Re : Type :=
| Char (c : ascii)
| Star (class : ascii -> bool)
| Plus (class : ascii -> bool)
| Capture (r : Re)
| Seq (r1 r2 : Re).

(** [class*] in front of the rest of the pattern, [k]. *)
Fixpoint star {R} (class : ascii -> bool) (group : option string) (s : string)
    (k : option string -> string -> option R) : option R :=
  match s with
  | EmptyString => k group s
  | String c s' =>
      if class c then
        match star class group s' k with
        | Some result => Some result
        | None => k group s
        end
      else k group s
  end.

(** The first [n] characters of [s]. *)
Fixpoint prefix (n : nat) (s : string) : string :=
  match n, s with
  | S m, String c s' => String c (prefix m s')
  | _, _ => EmptyString
  end.

(** [run r group s k] matches [r] at the start of [s] and hands the text of
    the capture group and the rest of [s] to [k], which stands for the rest of
    the pattern. *)
Fixpoint run {R} (r : Re) (group : option string) (s : string)
    (k : option string -> string -> option R) : option R :=
  match r with
  | Char c =>
      match s with
      | String d s' => if Ascii.eqb d c then k group s' else None
      | EmptyString => None
      end
  | Star class => star class group s k
  | Plus class =>
      match s with
      | String d s' => if class d then star class group s' k else None
      | EmptyString => None
      end
  | Capture r1 =>
      run r1 group s
        (fun _ rest =>
           k (Some (prefix (String.length s - String.length rest) s)) rest)
  | Seq r1 r2 => run r1 group s (fun group' rest => run r2 group' rest k)
  end.

(** One attempt of [r] at the start of [s]: the text of the capture group
    and the length of the match. *)
Definition exec (r : Re) (s : string) : option (string * nat) :=
  run r None s
    (fun group rest =>
       Some (default EmptyString group, String.length s - String.length rest)).

End Regex.

(** ** The placeholder pattern [/{{\s*([\w.]+)\s*}}/g] and [String.prototype.replace] *)

Module Placeholder.

Import Chars.

Definition pattern : Regex.Re :=
  Regex.Seq (Regex.Char "{") (Regex.Seq (Regex.Char "{")
    (Regex.Seq (Regex.Star is_space)
      (Regex.Seq (Regex.Capture (Regex.Plus is_keychar))
        (Regex.Seq (Regex.Star is_space)
          (Regex.Seq (Regex.Char "}") (Regex.Char "}")))))).

(** One attempt of the pattern at the start of [s]: the captured key and the
    length of the match. *)
Definition match_at (s : string) : option (string * nat) :=
  Regex.exec pattern s.

(** The same attempt as a scan without backtracking.  The three classes that
    follow the opening braces (white space, key characters, the closing
    brace) are disjoint, so the longest runs are the only way the pattern can
    match; [match_at_scan] below proves that the two agree. *)
Definition scan_at (s : string) : option (string * nat) :=
  match s with
  | String "{" (String "{" s1) =>
      let s2 := Str.dropWhile is_space s1 in
      let key := Str.takeWhile is_keychar s2 in
      let s3 := Str.dropWhile is_keychar s2 in
      let s4 := Str.dropWhile is_space s3 in
      match key, s4 with
      | String _ _, String "}" (String "}" s5) =>
          Some (key, String.length s - String.length s5)
      | _, _ => None
      end
  | _ => None
  end.

(** [s.replace(pattern, callback)] with the global flag: the string is
    scanned once from left to right; at a position where the pattern matches,
    the callback's result takes the place of the match and the scan resumes
    after the match, [skip] counting the characters of the match still to be
    passed over; other characters are copied.  A callback that throws ends
    the call. *)
Fixpoint replace_from (skip : nat) (callback : string -> Completion string)
    (s : string) : Completion string :=
  match s with
  | EmptyString => Normal EmptyString
  | String c s' =>
      match skip with
      | S n => replace_from n callback s'
      | O =>
          match match_at s with
          | Some (key, len) =>
              r <- callback key ;;
              rest <- replace_from (len - 1) callback s' ;;
              Normal (r +:+ rest)
          | None =>
              rest <- replace_from 0 callback s' ;;
              Normal (String c rest)
          end
      end
  end.

Definition replace (callback : string -> Completion string) (s : string)
    : Completion string :=
  replace_from 0 callback s.

(** The keys of the placeholders that the scan of [s] finds, in order. *)
Fixpoint keys_from (skip : nat) (s : string) : list string :=
  match s with
  | EmptyString => []
  | String c s' =>
      match skip with
      | S n => keys_from n s'
      | O =>
          match match_at s with
          | Some (key, len) => key :: keys_from (len - 1) s'
          | None => keys_from 0 s'
          end
      end
  end.

Definition keys (s : string) : list string := keys_from 0 s.



(** The texts the pattern matches, said without the scan: two opening
    braces, white space, a non-empty key of word characters and dots, white
    space, two closing braces. *)
Definition text (ws1 key ws2 : string) : string :=
  "{{" +:+ ws1 +:+ key +:+ ws2 +:+ "}}".

Record WellFormed (ws1 key ws2 : string) : Prop := {
  wf_ws1 : Str.all is_space ws1 = true;
  wf_key : Str.all is_keychar key = true;
  wf_key_nonempty : key <> EmptyString;
  wf_ws2 : Str.all is_space ws2 = true;
}.

(** [s] contains a placeholder. *)
Definition Occurs (s : string) : Prop :=
  exists pre ws1 key ws2 post,
    s = pre +:+ text ws1 key ws2 +:+ post /\ WellFormed ws1 key ws2.

End Placeholder.

(** ** [src/promptManager.js] *)

(** What the program does to the outside, in the order it does it. *)
Inductive Event : Type :=
| PromptGet (name : JsVal) (label : option JsVal)
| ConsoleLog (text : string)
| ConsoleError (text : string) (e : Exn).

(** What [langfuse.prompt.get] resolves to: a falsy value, or a prompt
    object, of which the code reads [compile] (used when it is a function)
    and [prompt]. *)
Inductive Fetched : Type :=
| NoPrompt
| Prompt (compile : option (JsVal -> Completion JsVal)) (prompt : JsVal).

Inductive Outcome : Type :=
| Resolved (fetched : Fetched)
| Rejected (e : Exn).

(** The Langfuse client: the outcome of a call of [prompt.get] may depend on
    everything that happened before it. *)
Record LangfuseClient : Type := {
  prompt_get : list Event -> JsVal -> option JsVal -> Outcome;
}.

(** A computation with effects: it extends the trace and completes. *)
Definition Eff (A : Type) : Type := list Event -> Completion A * list Event.

Module Eff.

Definition ret {A} (a : A) : Eff A := fun tr => (Normal a, tr).

Definition throw {A} (e : Exn) : Eff A := fun tr => (Throw e, tr).

Definition lift {A} (c : Completion A) : Eff A := fun tr => (c, tr).

Definition bind {A B} (m : Eff A) (k : A -> Eff B) : Eff B := fun tr =>
  match m tr with
  | (Normal a, tr') => k a tr'
  | (Throw e, tr') => (Throw e, tr')
  end.

(** [try { m } catch (e) { handler e }]. *)
Definition try_catch {A} (m : Eff A) (handler : Exn -> Eff A) : Eff A := fun tr =>
  match m tr with
  | (Normal a, tr') => (Normal a, tr')
  | (Throw e, tr') => handler e tr'
  end.

Definition emit (ev : Event) : Eff unit := fun tr => (Normal tt, tr ++ [ev]).

(** [await client.prompt.get(name, ...)]: the call is recorded and completes
    as the client decides. *)
Definition get (client : LangfuseClient) (name : JsVal) (label : option JsVal)
    : Eff Fetched := fun tr =>
  match prompt_get client tr name label with
  | Resolved f => (Normal f, tr ++ [PromptGet name label])
  | Rejected e => (Throw e, tr ++ [PromptGet name label])
  end.

End Eff.

Declare Scope eff_scope.
Delimit Scope eff_scope with eff.
Notation "x <- m ;; k" := (Eff.bind m (fun x => k))
  (at level 100, m at next level, right associativity) : eff_scope.
Notation "m ;;; k" := (Eff.bind m (fun _ => k))
  (at level 100, right associativity) : eff_scope.

Module PromptManager.

(** The process environment, as far as the module reads it. *)
Record Env : Type := {
  LANGFUSE_PUBLIC_KEY : option string;
  LANGFUSE_SECRET_KEY : option string;
  LANGFUSE_BASE_URL : option string;
}.

(** [Boolean(process.env.X)]: set and not empty. *)
Definition env_set (v : option string) : bool :=
  match v with
  | Some s => negb (Str.is_empty s)
  | None => false
  end.

Definition hasLangfuseCreds (env : Env) : bool :=
  env_set (LANGFUSE_PUBLIC_KEY env) && env_set (LANGFUSE_SECRET_KEY env).

(** The module's top level: [langfuse] stays [null] unless both keys are set
    and the client's constructor, which belongs to the SDK, returns. *)
Definition initLangfuse (env : Env)
    (construct : string -> string -> string -> Completion LangfuseClient)
    : Eff (option LangfuseClient) :=
  if hasLangfuseCreds env then
    match construct (default "" (LANGFUSE_PUBLIC_KEY env))
                    (default "" (LANGFUSE_SECRET_KEY env))
                    (if env_set (LANGFUSE_BASE_URL env)
                     then default "" (LANGFUSE_BASE_URL env)
                     else "https://us.cloud.langfuse.com") with
    | Normal client => Eff.ret (Some client)
    | Throw e =>
        (Eff.emit (ConsoleError
           "[Langfuse] Failed to initialize client, falling back to static prompt:" e) ;;;
         Eff.ret None)%eff
    end
  else Eff.ret None.

(** The argument of [generatePrompt]; a field the caller left out is
    [JUndefined], which is also what [details?.field] gives when [details]
    itself is missing. *)
Record Details : Type := {
  prompt_name : JsVal;
  prompt_label : JsVal;
  prompt_text : JsVal;
  prompt_variables : JsVal;
}.

Definition FALLBACK : string :=
  "You are a helpful, concise voice assistant. Provide clear, direct answers.".

Definition LF : string := String (ascii_of_nat 10) EmptyString.

(** [toStringPrompt]: a chat or text prompt as one string. *)
Definition toStringPrompt (rt : Runtime) (value : JsVal) : Completion string :=
  match value with
  | JStr s => Normal s
  | JArr messages =>
      cmap (String.concat LF)
        ((fix each (l : list JsVal) : Completion (list string) :=
            match l with
            | [] => Normal []
            | m :: l' =>
                s <- (if Js.truthy m && String.eqb (Js.typeof m) "object"
                      then content <- Js.get rt m "content" ;;
                           Js.ToString (Js.coalesce content (JStr ""))
                      else Js.ToString (Js.coalesce m (JStr ""))) ;;
                ss <- each l' ;;
                Normal (s :: ss)
            end) messages)
  | _ => Js.ToString (Js.coalesce value (JStr ""))
  end.

(** The callback of [reduce] in [manualCompile]:
    [acc && acc[k] !== undefined ? acc[k] : undefined]. *)
Definition step (rt : Runtime) (acc : JsVal) (k : string) : Completion JsVal :=
  if Js.truthy acc then
    x <- Js.get rt acc k ;;
    match x with
    | JUndefined => Normal JUndefined
    | _ => Js.get rt acc k
    end
  else Normal JUndefined.

(** [keys.reduce(step, acc)]. *)
Fixpoint reduce (rt : Runtime) (keys : list string) (acc : JsVal) : Completion JsVal :=
  match keys with
  | [] => Normal acc
  | k :: keys' => acc' <- step rt acc k ;; reduce rt keys' acc'
  end.

(** The replacement of one placeholder: the callback given to [replace]. *)
Definition render (rt : Runtime) (vars : JsVal) (key : string) : Completion string :=
  value <- reduce rt (Str.split "." key) vars ;;
  if Js.nullish value then Normal "" else Js.ToString value.

(** [manualCompile]: manual [{{ var }}] replacement. *)
Definition manualCompile (rt : Runtime) (template vars : JsVal) : Completion string :=
  s <- toStringPrompt rt template ;;
  Placeholder.replace (render rt vars) s.

(** The normalisation of [details.prompt_variables]: a string is parsed as
    JSON, and anything that is not an object in the end is replaced by the
    empty object. *)
Definition normalizeVariables (rt : Runtime) (given : JsVal) : JsVal :=
  let variables := Js.coalesce given (JObj ∅) in
  let variables :=
    match variables with
    | JStr text =>
        match JSON_parse rt text with
        | Normal parsed => parsed
        | Throw _ => JObj ∅
        end
    | _ => variables
    end in
  if negb (Js.truthy variables) || negb (String.eqb (Js.typeof variables) "object")
  then JObj ∅ else variables.

(** [promptTextRaw] and [promptText]: the inline text when it is a string,
    trimmed.  ([String(s || '')] is [s] for a string [s].) *)
Definition promptTextRaw (details : Details) : string :=
  match prompt_text details with
  | JStr s => s
  | _ => ""
  end.

Definition promptText (details : Details) : string :=
  Str.trim (promptTextRaw details).

(** [s || ''] for a string [s]. *)
Definition or_empty (s : string) : string :=
  if Str.is_empty s then "" else s.

(** The message of the error thrown for a falsy result of the lookup. *)
Definition notFoundMessage (promptName label : JsVal) : Completion string :=
  n <- Js.ToString promptName ;;
  l <- (if Js.truthy label
        then l <- Js.ToString label ;; Normal (" (label: " +:+ l +:+ ")")
        else Normal "") ;;
  Normal ("Prompt not found: " +:+ n +:+ l).

(** The compilation of a fetched prompt: by the SDK's [compile] when the
    prompt has one, by [manualCompile] otherwise; the result as a string. *)
Definition compileFetched (rt : Runtime)
    (compile : option (JsVal -> Completion JsVal)) (prompt variables : JsVal)
    : Completion string :=
  compiledText <-
    match compile with
    | Some sdkCompile => sdkCompile variables
    | None => cmap JStr (manualCompile rt (Js.or_else prompt (JStr "")) variables)
    end ;;
  toStringPrompt rt compiledText.

(** The body of the outer [try] of [generatePrompt]: fetch, with one more
    attempt without label when the first attempt throws, then compile. *)
Definition fetchAndCompile (rt : Runtime) (client : LangfuseClient)
    (promptName label variables : JsVal) : Eff string :=
  (fetched <- Eff.try_catch
                (if Js.truthy label
                 then Eff.get client promptName (Some label)
                 else Eff.get client promptName None)
                (fun _err => Eff.get client promptName None) ;;
   match fetched with
   | NoPrompt =>
       message <- Eff.lift (notFoundMessage promptName label) ;;
       Eff.throw (Error message)
   | Prompt compile prompt =>
       compiledString <- Eff.lift (compileFetched rt compile prompt variables) ;;
       Eff.emit (ConsoleLog ("[Langfuse] Prompt (compiled):" +:+ LF +:+ compiledString)) ;;;
       Eff.ret compiledString
   end)%eff.

Definition generatePrompt (rt : Runtime) (langfuse : option LangfuseClient)
    (details : Details) : Eff string :=
  let promptName := prompt_name details in
  let label := Js.or_else (prompt_label details) JUndefined in
  let variables := normalizeVariables rt (prompt_variables details) in
  if negb (Js.truthy promptName) then
    Eff.throw (Error "Missing prompt_name in details")
  else if (0 <? String.length (promptText details))%nat then
    Eff.lift (cmap or_empty (manualCompile rt (JStr (promptText details)) variables))
  else
    match langfuse with
    | None =>
        (fallback <- Eff.lift (cmap or_empty (manualCompile rt (JStr FALLBACK) variables)) ;;
         Eff.emit (ConsoleLog "[Langfuse] Not configured. Using fallback prompt.") ;;;
         Eff.ret fallback)%eff
    | Some client =>
        Eff.try_catch
          (fetchAndCompile rt client promptName label variables)
          (fun error =>
             (Eff.emit (ConsoleError "Error fetching/compiling prompt from Langfuse:" error) ;;;
              Eff.lift (cmap or_empty (manualCompile rt (JStr FALLBACK) variables)))%eff)
    end.

(** The calls of the prompt service recorded in a trace. *)
Definition isRemoteCall (ev : Event) : bool :=
  match ev with PromptGet _ _ => true | _ => false end.

Definition remoteCalls (tr : list Event) : list Event :=
  List.filter isRemoteCall tr.

End PromptManager.

(** ** [src/db.ts]: the [conversations] table *)

Module Db.

(** A row of [conversations], column by column.  [col_id] is the uuid as the
    database prints it; the [jsonb] columns hold the JSON value that was sent
    as text; [col_created_at] is a point in time. *)
Record Row : Type := {
  col_id : string;
  col_conversation_type : JsVal;
  col_prompt_name : JsVal;
  col_prompt_label : JsVal;
  col_agent_name : JsVal;
  col_webhook_link : JsVal;
  col_company_name : JsVal;
  col_prompt_text : JsVal;
  col_agent_description : JsVal;
  col_media_mode : string;
  col_prompt_variables : JsVal;
  col_ui_variables : JsVal;
  col_complete_screen : JsVal;
  col_created_at : Z;
}.

(** The database server, as far as the code depends on it: whether the
    statements of [initDb] go through; how it reads the text of a uuid, the
    answer being the uuid in the server's own spelling (lower case, with
    hyphens), or nothing for a text that is no uuid; what [now()] is; and
    whether it takes a row.  The tables of this model are tables of the
    current schema, whose rows have the columns of [Row]: what [initDb] does
    to the columns of an older table is followed apart, in [Schema]. *)
Record Postgres : Type := {
  pg_init : Completion unit;
  pg_uuid : string -> option string;
  pg_now : Z;
  pg_refuses : Row -> option Exn;
}.

Record InsertConversationParams : Type := {
  id : string;
  conversation_type : JsVal;
  prompt_name : JsVal;
  prompt_label : JsVal;
  agent_name : JsVal;
  webhook_link : JsVal;
  company_name : JsVal;
  prompt_text : JsVal;
  agent_description : JsVal;
  media_mode : JsVal;
  prompt_variables : JsVal;
  ui_variables : JsVal;
  complete_screen : JsVal;
}.

(** [media_mode === 'audio_video' ? 'audio_video' : 'audio_only']. *)
Definition mediaMode (media_mode : JsVal) : string :=
  if Js.is_string "audio_video" media_mode then "audio_video" else "audio_only".

(** The row of the statement: the uuid that [$1] stands for, the values
    bound to [$2 .. $13], and the time of creation. *)
Definition rowOf (uuid : string) (created_at : Z) (params : InsertConversationParams)
    : Row := {|
  col_id := uuid;
  col_conversation_type := conversation_type params;
  col_prompt_name := Js.coalesce (prompt_name params) JNull;
  col_prompt_label := Js.coalesce (prompt_label params) JNull;
  col_agent_name := agent_name params;
  col_webhook_link := webhook_link params;
  col_company_name := Js.coalesce (company_name params) JNull;
  col_prompt_text := Js.coalesce (prompt_text params) JNull;
  col_agent_description := Js.coalesce (agent_description params) JNull;
  col_media_mode := mediaMode (media_mode params);
  col_prompt_variables := Js.coalesce (prompt_variables params) (JObj ∅);
  col_ui_variables := Js.coalesce (ui_variables params) (JObj ∅);
  col_complete_screen := Js.coalesce (complete_screen params) (JObj ∅);
  col_created_at := created_at;
|}.

Definition invalidUuid : Exn := Error "invalid input syntax for type uuid".

(** [insertConversation]: [insert ... on conflict (id) do update set ...
    returning id].  The statement fails for an [id] that is no uuid.  A new
    row is created at [now()]; on a conflict the twelve columns of
    [do update set] are overwritten and [created_at] is kept.  What is
    returned is the [id] of the row, the uuid as the database prints it. *)
Definition insertConversation (pg : Postgres) (params : InsertConversationParams)
    (table : gmap string Row) : Completion string * gmap string Row :=
  match pg_uuid pg (id params) with
  | None => (Throw invalidUuid, table)
  | Some uuid =>
      let created_at :=
        match table !! uuid with
        | Some old => col_created_at old
        | None => pg_now pg
        end in
      let row := rowOf uuid created_at params in
      match pg_refuses pg row with
      | Some e => (Throw e, table)
      | None => (Normal (col_id row), <[uuid := row]> table)
      end
  end.

End Db.

(** ** [src/index.ts]: [POST /api/conversations] *)

Module Server.

Inductive ResponseBody : Type :=
| Created (id url : string)
| Failure (error : string).

Record Response : Type := {
  status : nat;
  body : ResponseBody;
}.

(** What the handler takes from its surroundings besides the database. *)
Record Services : Type := {
  randomUUID : string;
  FRONTEND_BASE_URL : option string;
  encodeURIComponent : string -> string;
}.

(** [s.replace(/\/$/, '')]: one trailing slash is removed. *)
Fixpoint dropTrailingSlash (s : string) : string :=
  match s with
  | EmptyString => EmptyString
  | String c s' =>
      if Ascii.eqb c "/" && Str.is_empty s' then EmptyString
      else String c (dropTrailingSlash s')
  end.

Definition buildConversationUrl (sv : Services) (id : string) : string :=
  let base :=
    dropTrailingSlash
      (if PromptManager.env_set (FRONTEND_BASE_URL sv)
       then default "" (FRONTEND_BASE_URL sv)
       else "https://livekit-agent-builder.vercel.app") in
  base +:+ "/api/conversation/" +:+ encodeURIComponent sv id.

(** [readJsonBody]: the request's text, parsed; no text is the empty object. *)
Definition readJsonBody (rt : Runtime) (text : string) : Completion JsVal :=
  if Str.is_empty text then Normal (JObj ∅) else JSON_parse rt text.

(** [v && typeof v === 'object' ? v : {}]. *)
Definition objectOrEmpty (v : JsVal) : JsVal :=
  if Js.truthy v && String.eqb (Js.typeof v) "object" then v else JObj ∅.

(** [body.id && body.id.trim() !== '' ? body.id : randomUUID()]; only a
    string has a [trim] to call. *)
Definition conversationId (rt : Runtime) (sv : Services) (body : JsVal)
    : Completion string :=
  given <- Js.get rt body "id" ;;
  if Js.truthy given then
    match given with
    | JStr s => Normal (if Str.is_empty (Str.trim s) then randomUUID sv else s)
    | _ => Throw (TypeError "body.id.trim is not a function")
    end
  else Normal (randomUUID sv).

(** What the handler holds after reading the body, before it validates. *)
Record Fields : Type := {
  f_conversation_type : JsVal;
  f_agent_name : JsVal;
  f_webhook_link : JsVal;
  f_prompt_name : JsVal;
  f_prompt_label : JsVal;
  f_company_name : JsVal;
  f_prompt_text : JsVal;
  f_agent_description : JsVal;
  f_media_mode : JsVal;
  f_prompt_variables : JsVal;
  f_ui_variables : JsVal;
  f_complete_screen : JsVal;
}.

Definition readFields (rt : Runtime) (body : JsVal) : Completion Fields :=
  conversation_type <- Js.get rt body "conversation_type" ;;
  agent_name <- Js.get rt body "agent_name" ;;
  webhook_link <- Js.get rt body "webhook_link" ;;
  prompt_name <- Js.get rt body "prompt_name" ;;
  prompt_label <- Js.get rt body "prompt_label" ;;
  company_name <- Js.get rt body "company_name" ;;
  prompt_text <- Js.get rt body "prompt_text" ;;
  agent_description <- Js.get rt body "agent_description" ;;
  media_mode <- Js.get rt body "media_mode" ;;
  prompt_variables <- Js.get rt body "prompt_variables" ;;
  ui_variables <- Js.get rt body "ui_variables" ;;
  complete_screen <-
    Js.get rt (Js.or_else ui_variables (JObj ∅)) "complete_screen" ;;
  Normal {|
    f_conversation_type := Js.or_else conversation_type (JStr "");
    f_agent_name := Js.or_else agent_name (JStr "");
    f_webhook_link := Js.or_else webhook_link (JStr "");
    f_prompt_name := prompt_name;
    f_prompt_label := prompt_label;
    f_company_name := company_name;
    f_prompt_text := prompt_text;
    f_agent_description := agent_description;
    f_media_mode := media_mode;
    f_prompt_variables := Js.or_else prompt_variables (JObj ∅);
    f_ui_variables := Js.or_else ui_variables (JObj ∅);
    f_complete_screen := Js.or_else complete_screen (JObj ∅);
  |}.

(** The part of the handler after the check of the required fields: it
    completes with the response, or throws into the handler's [catch]. *)
Definition store (rt : Runtime) (pg : Db.Postgres) (sv : Services)
    (body : JsVal) (f : Fields) (table : gmap string Db.Row)
    : Completion Response * gmap string Db.Row :=
  match Db.pg_init pg with
  | Throw e => (Throw e, table)
  | Normal _ =>
      match conversationId rt sv body with
      | Throw e => (Throw e, table)
      | Normal id =>
          let media_mode := JStr (Db.mediaMode (f_media_mode f)) in
          match Db.insertConversation pg {|
                  Db.id := id;
                  Db.conversation_type := f_conversation_type f;
                  Db.prompt_name := f_prompt_name f;
                  Db.prompt_label := f_prompt_label f;
                  Db.agent_name := f_agent_name f;
                  Db.agent_description := f_agent_description f;
                  Db.webhook_link := f_webhook_link f;
                  Db.company_name := f_company_name f;
                  Db.prompt_text := f_prompt_text f;
                  Db.media_mode := media_mode;
                  Db.prompt_variables := objectOrEmpty (f_prompt_variables f);
                  Db.ui_variables := objectOrEmpty (f_ui_variables f);
                  Db.complete_screen := objectOrEmpty (f_complete_screen f);
                |} table with
          | (Throw e, table') => (Throw e, table')
          | (Normal _, table') =>
              (Normal {| status := 200;
                         body := Created id (buildConversationUrl sv id) |},
               table')
          end
      end
  end.

Definition invalidBody : Response :=
  {| status := 400; body := Failure "Invalid JSON body" |}.

Definition missingFields : Response :=
  {| status := 400;
     body := Failure
       "Missing required snake_case fields: agent_name, webhook_link, conversation_type" |}.

(** The handler of [POST /api/conversations] on a request with the given
    text: the response, and the table afterwards. *)
Definition postConversations (rt : Runtime) (pg : Db.Postgres) (sv : Services)
    (text : string) (table : gmap string Db.Row) : Response * gmap string Db.Row :=
  match (body <- readJsonBody rt text ;;
         f <- readFields rt body ;;
         Normal (body, f)) with
  | Throw _ => (invalidBody, table)
  | Normal (body, f) =>
      if negb (Js.truthy (f_agent_name f)) || negb (Js.truthy (f_webhook_link f))
         || negb (Js.truthy (f_conversation_type f))
      then (missingFields, table)
      else
        match store rt pg sv body f table with
        | (Normal response, table') => (response, table')
        | (Throw _, table') => (invalidBody, table')
        end
  end.

(** The [media_mode] the request supplied: what the handler reads from the
    parsed body. *)
Definition suppliedMediaMode (rt : Runtime) (text : string) : Completion JsVal :=
  body <- readJsonBody rt text ;; Js.get rt body "media_mode".

End Server.

(** ** The vocabulary of the specification *)

Module Spec.

Import PromptManager.

(** A dot-separated path resolves in a mapping by successive key lookup: each
    segment is a key of the mapping reached so far. *)
Inductive Resolves : JsVal -> list string -> JsVal -> Prop :=
| ResolvesHere v : Resolves v [] v
| ResolvesStep (props : gmap string JsVal) k keys x v :
    props !! k = Some x ->
    Resolves x keys v ->
    Resolves (JObj props) (k :: keys) v.

(** The label the first attempt is made with. *)
Definition labelOf (details : Details) : option JsVal :=
  if Js.truthy (prompt_label details) then Some (prompt_label details) else None.

(** What the lookup of the named prompt comes to: the first attempt, and when
    that is rejected, the attempt without label that follows it. *)
Definition lookupOutcome (client : LangfuseClient) (details : Details)
    (tr : list Event) : Outcome :=
  match prompt_get client tr (prompt_name details) (labelOf details) with
  | Resolved fetched => Resolved fetched
  | Rejected _ =>
      prompt_get client
        (tr ++ [PromptGet (prompt_name details) (labelOf details)])
        (prompt_name details) None
  end.

(** The ways the remote tier fails: there is no client; the lookup is
    rejected (network, authentication, not found); it resolves to nothing; the
    prompt it resolves to does not compile to a string. *)
Definition RemoteFailure (rt : Runtime) (langfuse : option LangfuseClient)
    (details : Details) (tr : list Event) : Prop :=
  match langfuse with
  | None => True
  | Some client =>
      match lookupOutcome client details tr with
      | Rejected _ => True
      | Resolved NoPrompt => True
      | Resolved (Prompt compile prompt) =>
          exists e,
            compileFetched rt compile prompt
              (normalizeVariables rt (prompt_variables details)) = Throw e
      end
  end.

(** [!v || typeof v !== 'object']. *)
Definition notObject (v : JsVal) : bool :=
  negb (Js.truthy v) || negb (String.eqb (Js.typeof v) "object").


(** The first segment of a placeholder's key. *)
Definition firstSegment (key : string) : string :=
  hd EmptyString (Str.split "." key).

(** The request with another variables argument. *)
Definition withVariables (details : Details) (variables : JsVal) : Details := {|
  prompt_name := prompt_name details;
  prompt_label := prompt_label details;
  prompt_text := prompt_text details;
  prompt_variables := variables;
|}.

End Spec.

(** ** A runtime to evaluate the code on concrete inputs

    [Node.runtime] says what Node.js does on the property reads and the texts
    that the examples of this file use, and on those only: an ordinary object
    inherits the function members of [Object.prototype], each printed the way
    V8 prints a native function, and nothing under the other names the
    examples read; [JSON.parse] is given on the texts listed in [parsed] and
    throws on the other texts used, none of which is JSON. *)

Module Node.

Definition native (name : string) : JsVal :=
  JFun ("function " +:+ name +:+ "() { [native code] }").

Definition objectMembers : list (string * string) :=
  [ ("constructor", "Object"); ("toString", "toString");
    ("toLocaleString", "toLocaleString"); ("valueOf", "valueOf");
    ("hasOwnProperty", "hasOwnProperty"); ("isPrototypeOf", "isPrototypeOf");
    ("propertyIsEnumerable", "propertyIsEnumerable");
    ("__defineGetter__", "__defineGetter__");
    ("__defineSetter__", "__defineSetter__");
    ("__lookupGetter__", "__lookupGetter__");
    ("__lookupSetter__", "__lookupSetter__") ].

Fixpoint assoc {A} (k : string) (l : list (string * A)) : option A :=
  match l with
  | [] => None
  | (k', a) :: l' => if String.eqb k k' then Some a else assoc k l'
  end.

Definition quote : string := String (ascii_of_nat 34) EmptyString.

(** ["k":"v"], one member of a JSON object. *)
Definition member (k v : string) : string :=
  quote +:+ k +:+ quote +:+ ":" +:+ quote +:+ v +:+ quote.

(** The body of a request for a conversation with video: a JSON object with
    the members [agent_name], [webhook_link], [conversation_type] and
    [media_mode]. *)
Definition videoRequest : string :=
  "{" +:+ member "agent_name" "a" +:+ "," +:+ member "webhook_link" "w" +:+ ","
      +:+ member "conversation_type" "c" +:+ ","
      +:+ member "media_mode" "audio_video" +:+ "}".

Definition parsed : list (string * JsVal) :=
  [ (videoRequest,
     JObj {[ "agent_name" := JStr "a"; "webhook_link" := JStr "w";
             "conversation_type" := JStr "c"; "media_mode" := JStr "audio_video" ]}) ].

Definition runtime : Runtime := {|
  JSON_parse := fun text =>
    match assoc text parsed with
    | Some v => Normal v
    | None => Throw (SyntaxError "Unexpected token")
    end;
  inherited := fun v k =>
    match v with
    | JObj _ =>
        match assoc k objectMembers with
        | Some name => Normal (native name)
        | None => Normal JUndefined
        end
    | _ => Normal JUndefined
    end;
|}.

End Node.

(** ** Requests and collaborators of the examples *)

Module Examples.

Import PromptManager.

(** The request [{inlineText: "Hi {{ missing.path }}", variables: {}}]. *)
Definition inlineOnly : Details := {|
  prompt_name := JUndefined;
  prompt_label := JUndefined;
  prompt_text := JStr "Hi {{ missing.path }}";
  prompt_variables := JObj ∅;
|}.

(** The same request with a name. *)
Definition inlineNamed : Details := {|
  prompt_name := JStr "greeting";
  prompt_label := JUndefined;
  prompt_text := JStr "Hi {{ missing.path }}";
  prompt_variables := JObj ∅;
|}.

(** An inline text without placeholders, under an empty name. *)
Definition inlineEmptyName : Details := {|
  prompt_name := JStr "";
  prompt_label := JStr "v2";
  prompt_text := JStr "Be brief.";
  prompt_variables := JObj ∅;
|}.

(** The request [{name: "greeting", label: "v2", variables: {user: {name: "Ada"}}}]. *)
Definition labelled : Details := {|
  prompt_name := JStr "greeting";
  prompt_label := JStr "v2";
  prompt_text := JUndefined;
  prompt_variables := JObj {[ "user" := JObj {[ "name" := JStr "Ada" ]} ]};
|}.


(** A service that rejects every call. *)
Definition unreachable : LangfuseClient := {|
  prompt_get := fun _ _ _ => Rejected (ServiceError "401 Unauthorized");
|}.

(** A service that knows the prompt, but under no label. *)
Definition unlabelledOnly : LangfuseClient := {|
  prompt_get := fun _ _ label =>
    match label with
    | Some _ => Rejected (ServiceError "404 Not Found")
    | None => Resolved (Prompt None (JStr "Hello {{ user.name }}!"))
    end;
|}.

(** An environment without the Langfuse keys. *)
Definition noKeys : Env := {|
  LANGFUSE_PUBLIC_KEY := None;
  LANGFUSE_SECRET_KEY := None;
  LANGFUSE_BASE_URL := None;
|}.

End Examples.

(** ** A database and services for the examples of the handler *)

(** How PostgreSQL reads a uuid: thirty-two hexadecimal digits in either
    case, with an optional hyphen after any group of four but the last, the
    whole optionally in braces; and how it prints one: in lower case, in
    groups of 8, 4, 4, 4 and 12 digits. *)
Module Uuid.

Definition is_hex (c : ascii) : bool :=
  Chars.is_digit c || Chars.between 97 102 c || Chars.between 65 70 c.

Definition lower (c : ascii) : ascii :=
  if Chars.between 65 70 c then ascii_of_N (Chars.code c + 32) else c.

(** [n] bytes of two digits each from the start of [s]: the digits in lower
    case, and what follows them.  [odd] says that the byte about to be read
    has an odd index, so that a hyphen may follow it. *)
Fixpoint bytes (n : nat) (odd : bool) (s : string) : option (string * string) :=
  match n with
  | O => Some (EmptyString, s)
  | S n' =>
      match s with
      | String a (String b s') =>
          if is_hex a && is_hex b then
            let s'' :=
              match s' with
              | String "-" t =>
                  if odd && negb (Nat.eqb n' 0) then t else s'
              | _ => s'
              end in
            match bytes n' (negb odd) s'' with
            | Some (digits, rest) =>
                Some (String (lower a) (String (lower b) digits), rest)
            | None => None
            end
          else None
      | _ => None
      end
  end.

Definition print (digits : string) : string :=
  substring 0 8 digits +:+ "-" +:+ substring 8 4 digits +:+ "-"
  +:+ substring 12 4 digits +:+ "-" +:+ substring 16 4 digits +:+ "-"
  +:+ substring 20 12 digits.

Definition canonical (s : string) : option string :=
  let (closing, digits) :=
    match s with
    | String "{" s' => ("}", s')
    | _ => (EmptyString, s)
    end in
  match bytes 16 false digits with
  | Some (digits, rest) =>
      if String.eqb rest closing then Some (print digits) else None
  | None => None
  end.

End Uuid.

Module ServerExamples.

(** A database that takes every row with a uuid. *)
Definition postgres : Db.Postgres := {|
  Db.pg_init := Normal tt;
  Db.pg_uuid := Uuid.canonical;
  Db.pg_now := 1700000000;
  Db.pg_refuses := fun _ => None;
|}.

Definition services : Server.Services := {|
  Server.randomUUID := "7c9e6679-7425-40de-944b-e07fc1f90ae7";
  Server.FRONTEND_BASE_URL := None;
  Server.encodeURIComponent := fun s => s;
|}.

End ServerExamples.

(** ** The rest of the three files, and the caller of [generatePrompt]

    What the sections above leave out of [src/index.ts] and [src/db.ts], and
    the part of the agent's entry point that calls [generatePrompt]. *)

(** *** [requireEnv] of [src/index.ts] and of the agent *)

Module Startup.

(** [!process.env[k] || String(process.env[k]).trim() === ''], negated: the
    variable is set to something other than white space. *)
Definition present (env : gmap string string) (k : string) : bool :=
  match env !! k with
  | Some v => negb (Str.is_empty v) && negb (Str.is_empty (Str.trim v))
  | None => false
  end.

Definition missing (env : gmap string string) (keys : list string) : list string :=
  List.filter (fun k => negb (present env k)) keys.

(** How the start of the process goes on: it runs, or it prints to the error
    stream and exits. *)
Inductive Started : Type :=
| Running
| Exited (code : nat) (printed : list string).

Definition requireEnv (env : gmap string string) (keys : list string) : Started :=
  match missing env keys with
  | [] => Running
  | k :: ks =>
      Exited 1
        [ "Missing required environment variables: " +:+ String.concat ", " (k :: ks);
          "Create a .env file (you can copy from .env.example) and set these values." ]
  end.

End Startup.

(** *** [getPool] of [src/db.ts] *)

Module Pg.

(** What [new Pool] is given. *)
Record Pool : Type := {
  connectionString : string;
  rejectUnauthorized : bool;
}.

(** [getPool] with the module's [poolSingleton] passed in and out. *)
Definition getPool (DATABASE_URL : option string) (poolSingleton : option Pool)
    : Completion Pool * option Pool :=
  match poolSingleton with
  | Some pool => (Normal pool, poolSingleton)
  | None =>
      match DATABASE_URL with
      | Some url =>
          if Str.is_empty url || Str.is_empty (Str.trim url) then
            (Throw (Error "DATABASE_URL is not set. Define it in your .env"), None)
          else
            let pool := {| connectionString := url; rejectUnauthorized := false |} in
            (Normal pool, Some pool)
      | None =>
          (Throw (Error "DATABASE_URL is not set. Define it in your .env"), None)
      end
  end.

End Pg.

(** *** [initDb] of [src/db.ts]

    The statements of [initDb] are followed through the columns of the table
    [conversations]: the database is the set of the table's columns, or
    nothing when the table does not exist.  Rows, column types and defaults
    are left out. *)

Module Schema.

Inductive Statement : Type :=
| CreateTable
| AddColumn (column : string)
| SelectMetaData
| MigrateMetaData
| DropMetaData.

(** The columns of [create table if not exists conversations (...)]. *)
Definition created : list string :=
  [ "id"; "conversation_type"; "prompt_name"; "prompt_label"; "agent_name";
    "webhook_link"; "company_name"; "prompt_text"; "agent_description";
    "media_mode"; "prompt_variables"; "ui_variables"; "complete_screen";
    "created_at" ].

(** The columns of the [alter table ... add column if not exists] statements,
    in the order of the statements. *)
Definition added : list string :=
  [ "prompt_variables"; "ui_variables"; "company_name"; "prompt_text";
    "agent_description"; "complete_screen"; "media_mode" ].

Definition noTable : Exn := Error "relation conversations does not exist".
Definition noColumn : Exn := Error "column does not exist".

(** What a statement does to the table's columns, and the [rowCount] it
    answers. *)
Definition run (st : Statement) (db : option (gset string))
    : Completion nat * option (gset string) :=
  match st, db with
  | CreateTable, None => (Normal 0, Some (list_to_set created))
  | CreateTable, Some _ => (Normal 0, db)
  | AddColumn column, Some columns => (Normal 0, Some (columns ∪ {[column]}))
  | AddColumn _, None => (Throw noTable, db)
  | SelectMetaData, Some columns =>
      (Normal (if decide ("meta_data" ∈ columns) then 1 else 0), db)
  | SelectMetaData, None => (Normal 0, db)
  | MigrateMetaData, Some columns =>
      if decide ("meta_data" ∈ columns ∧ "prompt_variables" ∈ columns
                 ∧ "ui_variables" ∈ columns)
      then (Normal 0, db) else (Throw noColumn, db)
  | MigrateMetaData, None => (Throw noTable, db)
  | DropMetaData, Some columns => (Normal 0, Some (columns ∖ {[ "meta_data" ]}))
  | DropMetaData, None => (Throw noTable, db)
  end.

(** [await getPool().query(statement)]: the server may refuse a statement (a
    lost connection, say); otherwise the statement runs. *)
Definition query (refuses : Statement -> option Exn) (st : Statement)
    (db : option (gset string)) : Completion nat * option (gset string) :=
  match refuses st with
  | Some e => (Throw e, db)
  | None => run st db
  end.

(** The statements one after the other; the first that throws ends the
    sequence. *)
Fixpoint queries (refuses : Statement -> option Exn) (sts : list Statement)
    (db : option (gset string)) : Completion unit * option (gset string) :=
  match sts with
  | [] => (Normal tt, db)
  | st :: sts' =>
      match query refuses st db with
      | (Normal _, db') => queries refuses sts' db'
      | (Throw e, db') => (Throw e, db')
      end
  end.

Definition initDb (refuses : Statement -> option Exn) (db : option (gset string))
    : Completion unit * option (gset string) :=
  match queries refuses (CreateTable :: map AddColumn added) db with
  | (Throw e, db') => (Throw e, db')
  | (Normal _, db') =>
      match query refuses SelectMetaData db' with
      | (Throw e, db'') => (Throw e, db'')
      | (Normal rowCount, db'') =>
          if (0 <? rowCount)%nat
          then queries refuses [MigrateMetaData; DropMetaData] db''
          else (Normal tt, db'')
      end
  end.

(** The columns that no [add column] statement supplies: a table that exists
    already has to bring them itself. *)
Definition brought : list string :=
  [ "id"; "conversation_type"; "prompt_name"; "prompt_label"; "agent_name";
    "webhook_link"; "created_at" ].

End Schema.

(** *** The routes of [src/index.ts] *)

Module Router.

Inductive Payload : Type :=
| Healthy
| Posted (body : Server.ResponseBody)
| Found (row : Db.Row)
| Failed (error : string).

Record Reply : Type := {
  code : nat;
  payload : Payload;
}.

Record Request : Type := {
  method : string;
  pathname : string;
  text : string;
}.

(** The last piece of [pathname.split('/')]. *)
Definition lastPart (pathname : string) : string :=
  List.last (Str.split "/" pathname) EmptyString.

(** The route [GET /api/conversations/:id].  [getConversationById] is not
    among the functions of [src/db.ts]; it is taken as given. *)
Definition getConversation (pg : Db.Postgres)
    (getConversationById : string -> Completion (option Db.Row))
    (pathname : string) : Reply :=
  let id := lastPart pathname in
  if Str.is_empty id || Str.is_empty (Str.trim id) then
    {| code := 400; payload := Failed "Missing conversation id" |}
  else
    match (_ <- Db.pg_init pg ;; getConversationById id)%js with
    | Throw _ => {| code := 500; payload := Failed "Failed to fetch conversation" |}
    | Normal None => {| code := 404; payload := Failed "Conversation not found" |}
    | Normal (Some row) => {| code := 200; payload := Found row |}
    end.

(** The callback of [http.createServer]: the reply, and the table
    afterwards, a table of the current schema as in [Db.Postgres]. *)
Definition handle (rt : Runtime) (pg : Db.Postgres) (sv : Server.Services)
    (getConversationById : string -> Completion (option Db.Row))
    (req : Request) (table : gmap string Db.Row) : Reply * gmap string Db.Row :=
  if String.eqb (method req) "GET" && String.eqb (pathname req) "/health" then
    ({| code := 200; payload := Healthy |}, table)
  else if String.eqb (method req) "POST"
          && String.eqb (pathname req) "/api/conversations" then
    let (response, table') := Server.postConversations rt pg sv (text req) table in
    ({| code := Server.status response; payload := Posted (Server.body response) |},
     table')
  else if String.eqb (method req) "GET"
          && negb (Str.is_empty (pathname req))
          && String.prefix "/api/conversations/" (pathname req) then
    (getConversation pg getConversationById (pathname req), table)
  else ({| code := 404; payload := Failed "Not found" |}, table).

End Router.

(** *** The entry point of the agent: the prompt of a session *)

Module Agent.

Import PromptManager.

(** The attributes of the participant that the entry point reads. *)
Record Attributes : Type := {
  a_prompt_name : JsVal;
  a_prompt_label : JsVal;
  a_prompt_text : JsVal;
  a_prompt_variables : JsVal;
}.

(** [prompt_variables]: parsed when the attribute is a string, taken when it
    is an object, the empty object otherwise. *)
Definition promptVariables (rt : Runtime) (given : JsVal) : JsVal :=
  match given with
  | JStr text =>
      match JSON_parse rt text with
      | Normal parsed => parsed
      | Throw _ => JObj ∅
      end
  | _ =>
      if Js.truthy given && String.eqb (Js.typeof given) "object"
      then given else JObj ∅
  end.

(** The call of [generatePrompt] and the line printed after it. *)
Definition sessionPrompt (rt : Runtime) (langfuse : option LangfuseClient)
    (attributes : Attributes) : Eff string :=
  (prompt <- generatePrompt rt langfuse {|
               prompt_name := a_prompt_name attributes;
               prompt_label := a_prompt_label attributes;
               prompt_text := a_prompt_text attributes;
               prompt_variables := promptVariables rt (a_prompt_variables attributes);
             |} ;;
   Eff.emit (ConsoleLog ("[agent] Compiled prompt:" +:+ LF +:+ or_empty prompt)) ;;;
   Eff.ret prompt)%eff.

Definition defaultContent : string :=
  "Hello! I'm your AI assistant. Let's get started.".

(** [initial_content]: what the agent says first. *)
Definition initialContent (rt : Runtime) (prompt_variables : JsVal)
    : Completion string :=
  (given <- (if Js.nullish prompt_variables then Normal JUndefined
             else Js.get rt prompt_variables "initial_content") ;;
   s <- Js.ToString (Js.or_else given (JStr "")) ;;
   Normal (if Str.is_empty (Str.trim s) then defaultContent else Str.trim s))%js.

End Agent.

(** *** More vocabulary and examples *)

Module More.

(** The last character of [s] is a slash. *)
Fixpoint endsWithSlash (s : string) : bool :=
  match s with
  | EmptyString => false
  | String c EmptyString => Ascii.eqb c "/"
  | String _ s' => endsWithSlash s'
  end.

(** The services with another [FRONTEND_BASE_URL]. *)
Definition withBase (sv : Server.Services) (base : option string) : Server.Services := {|
  Server.randomUUID := Server.randomUUID sv;
  Server.FRONTEND_BASE_URL := base;
  Server.encodeURIComponent := Server.encodeURIComponent sv;
|}.

(** The call of [generatePrompt] with the participant's attributes as they
    are, the variables not looked at beforehand. *)
Definition detailsOf (attributes : Agent.Attributes) : PromptManager.Details := {|
  PromptManager.prompt_name := Agent.a_prompt_name attributes;
  PromptManager.prompt_label := Agent.a_prompt_label attributes;
  PromptManager.prompt_text := Agent.a_prompt_text attributes;
  PromptManager.prompt_variables := Agent.a_prompt_variables attributes;
|}.

(** The variables are JSON text that stands for a string: an object encoded
    twice, say. *)
Definition EncodedTwice (rt : Runtime) (given : JsVal) : Prop :=
  exists text inner, given = JStr text /\ JSON_parse rt text = Normal (JStr inner).

(** A conversation with the required columns only. *)
Definition conversation (id : string) (media_mode : JsVal)
    : Db.InsertConversationParams := {|
  Db.id := id;
  Db.conversation_type := JStr "support";
  Db.prompt_name := JUndefined;
  Db.prompt_label := JUndefined;
  Db.agent_name := JStr "Ada";
  Db.webhook_link := JStr "https://example.org/hook";
  Db.company_name := JUndefined;
  Db.prompt_text := JUndefined;
  Db.agent_description := JUndefined;
  Db.media_mode := media_mode;
  Db.prompt_variables := JUndefined;
  Db.ui_variables := JUndefined;
  Db.complete_screen := JUndefined;
|}.

(** A row as the database of the examples stores it. *)
Definition stored : Db.Row :=
  Db.rowOf "7c9e6679-7425-40de-944b-e07fc1f90ae7" 1700000000
    (conversation "7c9e6679-7425-40de-944b-e07fc1f90ae7" JUndefined).

(** A message of a chat prompt with the given content. *)
Definition message (role content : string) : JsVal :=
  JObj {[ "role" := JStr role; "content" := JStr content ]}.

(** A database that cannot be reached. *)
Definition down : Db.Postgres := {|
  Db.pg_init := Throw (Error "connect ECONNREFUSED");
  Db.pg_uuid := Uuid.canonical;
  Db.pg_now := 1700000000;
  Db.pg_refuses := fun _ => Some (Error "connect ECONNREFUSED");
|}.

(** The database of the examples, an hour later. *)
Definition later : Db.Postgres := {|
  Db.pg_init := Normal tt;
  Db.pg_uuid := Uuid.canonical;
  Db.pg_now := 1700003600;
  Db.pg_refuses := fun _ => None;
|}.

(** A server that refuses no statement. *)
Definition willing : Schema.Statement -> option Exn := fun _ => None.

(** A server that refuses the statement that copies [meta_data]. *)
Definition readOnly : Schema.Statement -> option Exn := fun st =>
  match st with
  | Schema.MigrateMetaData => Some (Error "cannot execute UPDATE in a read-only transaction")
  | _ => None
  end.

(** The table of a deployment that predates the split of [meta_data]. *)
Definition legacy : gset string :=
  list_to_set (Schema.brought ++ ["meta_data"]).

(** A request whose prompt has no label. *)
Definition unlabelled : PromptManager.Details := {|
  PromptManager.prompt_name := JStr "greeting";
  PromptManager.prompt_label := JUndefined;
  PromptManager.prompt_text := JUndefined;
  PromptManager.prompt_variables := JObj {[ "user" := JObj {[ "name" := JStr "Ada" ]} ]};
|}.

(** A named request with an inline text whose variables are JSON text. *)
Definition stringified : PromptManager.Details := {|
  PromptManager.prompt_name := JStr "greeting";
  PromptManager.prompt_label := JUndefined;
  PromptManager.prompt_text := JStr "You are {{ agent_name }}.";
  PromptManager.prompt_variables := JStr Node.videoRequest;
|}.

(** The attributes of a participant whose variables are JSON text. *)
Definition participant : Agent.Attributes := {|
  Agent.a_prompt_name := JStr "greeting";
  Agent.a_prompt_label := JUndefined;
  Agent.a_prompt_text := JStr "You are {{ agent_name }}.";
  Agent.a_prompt_variables := JStr Node.videoRequest;
|}.

(** A JSON string literal: the text between quotes, with a backslash before
    each quote and backslash. *)
Fixpoint escape (s : string) : string :=
  match s with
  | EmptyString => EmptyString
  | String c s' =>
      if Ascii.eqb c (ascii_of_nat 34) || Ascii.eqb c (ascii_of_nat 92)
      then String (ascii_of_nat 92) (String c (escape s'))
      else String c (escape s')
  end.

Definition literal (s : string) : string := Node.quote +:+ escape s +:+ Node.quote.

(** The runtime of the examples, whose [JSON.parse] also reads the literal of
    [videoRequest]. *)
Definition runtime : Runtime := {|
  JSON_parse := fun text =>
    if String.eqb text (literal Node.videoRequest) then Normal (JStr Node.videoRequest)
    else JSON_parse Node.runtime text;
  inherited := inherited Node.runtime;
|}.

(** The same participant, whose variables were encoded twice. *)
Definition encodedTwice : Agent.Attributes := {|
  Agent.a_prompt_name := JStr "greeting";
  Agent.a_prompt_label := JUndefined;
  Agent.a_prompt_text := JStr "You are {{ agent_name }}.";
  Agent.a_prompt_variables := JStr (literal Node.videoRequest);
|}.

(** A service that fails once and then answers. *)
Definition flaky : LangfuseClient := {|
  prompt_get := fun tr _ _ =>
    match PromptManager.remoteCalls tr with
    | [] => Rejected (ServiceError "503 Service Unavailable")
    | _ => Resolved (Prompt None (JStr "Hello {{ user.name }}!"))
    end;
|}.

(** A service that finds nothing. *)
Definition empty : LangfuseClient := {|
  prompt_get := fun _ _ _ => Resolved NoPrompt;
|}.

(** A service whose prompt has neither [compile] nor text. *)
Definition blank : LangfuseClient := {|
  prompt_get := fun _ _ _ => Resolved (Prompt None JUndefined);
|}.

End More.

(** * Evaluation on concrete inputs *)

Module Evaluation.

Import PromptManager.

Example trim_removes_both_ends : Str.trim "  Hi {{ a }}  " = "Hi {{ a }}".
Proof. reflexivity. Qed.

Example split_keeps_empty_pieces : Str.split "." "a..b" = ["a"; ""; "b"].
Proof. reflexivity. Qed.

Example numbers_print_in_decimal : Str.of_Z (-42) = "-42" /\ Str.of_Z 0 = "0".
Proof. split; reflexivity. Qed.

Example array_indices :
  Str.index_of "10" = Some 10 /\ Str.index_of "01" = None
  /\ Str.index_of "0" = Some 0 /\ Str.index_of "" = None.
Proof. repeat split; reflexivity. Qed.

Example pattern_matches_with_spaces :
  Placeholder.match_at "{{ a.b }}!" = Some ("a.b", 9).
Proof. reflexivity. Qed.

Example pattern_matches_without_spaces :
  Placeholder.match_at "{{a}}" = Some ("a", 5).
Proof. reflexivity. Qed.

Example pattern_needs_one_key :
  Placeholder.match_at "{{ a b }}" = None /\ Placeholder.match_at "{{ }}" = None.
Proof. split; reflexivity. Qed.

(** In [{{{ a }}}] the match starts at the second brace. *)
Example pattern_after_a_brace :
  Placeholder.match_at "{{{ a }}}" = None
  /\ Placeholder.match_at "{{ a }}}" = Some ("a", 7).
Proof. split; reflexivity. Qed.

Example numbers_print_their_string_form :
  Js.ToString (JNum "1e+21") = Normal "1e+21"
  /\ Js.ToString (JNum "0.5") = Normal "0.5"
  /\ Js.truthy (JNum "0") = false /\ Js.truthy (JNum "NaN") = false.
Proof. repeat split; reflexivity. Qed.

Example arrays_print_their_elements :
  Js.ToString (JArr [JNum "1"; JNull; JStr "x"; JArr [JBool true; JUndefined]])
  = Normal "1,,x,true,".
Proof. reflexivity. Qed.

Example own_toString_blocks_conversion :
  Js.ToString (JObj {[ "toString" := JNum "1" ]})
  = Throw (TypeError "Cannot convert object to primitive value").
Proof. reflexivity. Qed.

Example chat_prompt_joins_contents :
  toStringPrompt Node.runtime
    (JArr [JObj {[ "role" := JStr "system"; "content" := JStr "Be kind." ]};
           JObj {[ "role" := JStr "user"; "content" := JStr "Hi" ]}])
  = Normal ("Be kind." +:+ LF +:+ "Hi").
Proof. reflexivity. Qed.

Example substitution_of_many_kinds :
  manualCompile Node.runtime
    (JStr "{{ a.b }}|{{a.b}}|{{{ a.b }}}|{{ a .b }}|{{ n }}|{{ e }}|{{ e.1 }}|{{ gone }}")
    (JObj {[ "a" := JObj {[ "b" := JStr "x" ]}; "n" := JNum "0";
             "e" := JArr [JNum "1"; JNum "2"] ]})
  = Normal "x|x|{x}|{{ a .b }}|0|1,2|2|".
Proof. reflexivity. Qed.

(** On the inline path the error of a conversion to a string reaches the
    caller. *)
Example inline_substitution_can_throw :
  generatePrompt Node.runtime None
    {| prompt_name := JStr "greeting"; prompt_label := JUndefined;
       prompt_text := JStr "Dear {{ a }}";
       prompt_variables := JObj {[ "a" := JObj {[ "toString" := JNum "1" ]} ]} |} []
  = (Throw (TypeError "Cannot convert object to primitive value"), []).
Proof. reflexivity. Qed.

(** The scenario of the specification: the labelled lookup answers. *)
Example labelled_lookup_answers :
  generatePrompt Node.runtime
    (Some {| prompt_get := fun _ _ _ =>
               Resolved (Prompt None (JStr "Hello {{ user.name }}!")) |})
    Examples.labelled []
  = (Normal "Hello Ada!",
     [PromptGet (JStr "greeting") (Some (JStr "v2"));
      ConsoleLog ("[Langfuse] Prompt (compiled):" +:+ LF +:+ "Hello Ada!")]).
Proof. reflexivity. Qed.

(** A prompt with a [compile] of its own is compiled by it. *)
Example sdk_compile_is_preferred :
  generatePrompt Node.runtime
    (Some {| prompt_get := fun _ _ _ =>
               Resolved (Prompt (Some (fun _ => Normal (JStr "compiled by the SDK")))
                           (JStr "Hello {{ user.name }}!")) |})
    Examples.labelled []
  = (Normal "compiled by the SDK",
     [PromptGet (JStr "greeting") (Some (JStr "v2"));
      ConsoleLog ("[Langfuse] Prompt (compiled):" +:+ LF +:+ "compiled by the SDK")]).
Proof. reflexivity. Qed.

Example uuids_are_read_in_either_case :
  Uuid.canonical "7C9E6679-7425-40DE-944B-E07FC1F90AE7"
  = Some "7c9e6679-7425-40de-944b-e07fc1f90ae7"
  /\ Uuid.canonical "{7c9e66797425-40de944be07fc1f90ae7}"
     = Some "7c9e6679-7425-40de-944b-e07fc1f90ae7"
  /\ Uuid.canonical "c1" = None
  /\ Uuid.canonical "7c9e6679-7425-40de-944b-e07fc1f90ae7 " = None.
Proof. repeat split; reflexivity. Qed.

(** A request without the required fields is refused and nothing is stored. *)
Example post_without_fields :
  Server.postConversations Node.runtime ServerExamples.postgres
    ServerExamples.services "" ∅
  = (Server.missingFields, ∅).
Proof. reflexivity. Qed.

Example post_with_bad_json :
  Server.postConversations Node.runtime ServerExamples.postgres
    ServerExamples.services "{oops" ∅
  = (Server.invalidBody, ∅).
Proof. reflexivity. Qed.

End Evaluation.

(** * Proofs *)

(** ** Strings *)

Module StrFacts.

Import Chars Str.

Lemma append_nil_l s : "" +:+ s = s.
Proof. reflexivity. Qed.

Lemma append_cons c s t : String c s +:+ t = String c (s +:+ t).
Proof. reflexivity. Qed.

Lemma append_nil_r s : s +:+ "" = s.
Proof. induction s as [|c s IH]; [done|]. by rewrite append_cons, IH. Qed.

Lemma append_assoc s t u : (s +:+ t) +:+ u = s +:+ t +:+ u.
Proof. induction s as [|c s IH]; [done|]. by rewrite !append_cons, IH. Qed.

Lemma length_append s t : String.length (s +:+ t) = String.length s + String.length t.
Proof. induction s as [|c s IH]; [done|]. rewrite append_cons. simpl. by rewrite IH. Qed.

Lemma take_drop_while p s : takeWhile p s +:+ dropWhile p s = s.
Proof.
  induction s as [|c s IH]; [done|]. simpl.
  destruct (p c); [|done]. by rewrite append_cons, IH.
Qed.

Lemma all_takeWhile p s : all p (takeWhile p s) = true.
Proof.
  induction s as [|c s IH]; [done|]. simpl.
  destruct (p c) eqn:Hc; [|done]. simpl. by rewrite Hc.
Qed.

(** A run stops at a character outside the class, whatever precedes it. *)
Lemma dropWhile_app_stop p a c u :
  p c = false -> dropWhile p (a +:+ String c u) = dropWhile p a +:+ String c u.
Proof.
  intros Hc. induction a as [|d a IH].
  - rewrite !append_nil_l. simpl. by rewrite Hc.
  - rewrite append_cons. simpl. destruct (p d); [done|]. by rewrite append_cons.
Qed.

Lemma takeWhile_app_stop p a c u :
  p c = false -> takeWhile p (a +:+ String c u) = takeWhile p a.
Proof.
  intros Hc. induction a as [|d a IH].
  - rewrite append_nil_l. simpl. by rewrite Hc.
  - rewrite append_cons. simpl. destruct (p d); [|done]. by rewrite IH.
Qed.

Lemma dropWhile_all p a : all p a = true -> dropWhile p a = "".
Proof.
  induction a as [|d a IH]; [done|]. simpl.
  destruct (p d); [|done]. auto.
Qed.

Lemma takeWhile_all p a : all p a = true -> takeWhile p a = a.
Proof.
  induction a as [|d a IH]; [done|]. simpl.
  destruct (p d); [|done]. intros ?. f_equal. auto.
Qed.

(** A fact about every character, settled by going through the 256 of them. *)
Ltac by_character c := destruct c as [[] [] [] [] [] [] [] []]; done.

Lemma keychar_not_space c : is_keychar c = true -> is_space c = false.
Proof. by_character c. Qed.

Lemma space_not_keychar c : is_space c = true -> is_keychar c = false.
Proof. by_character c. Qed.

End StrFacts.

(** ** The placeholder pattern *)

Module PlaceholderFacts.

Import Chars Str StrFacts Regex Placeholder.

(** *** The pattern and its scan *)

(** A greedy run gives nothing back when the rest of the pattern cannot
    start with a character of the class. *)
Lemma star_greedy {R} class group s (k : option string -> string -> option R) :
  (forall g c t, class c = true -> k g (String c t) = None) ->
  star class group s k = k group (dropWhile class s).
Proof.
  intros Hk. induction s as [|c s IH]; [done|].
  simpl. destruct (class c) eqn:Hc; [|done].
  rewrite IH. destruct (k group (dropWhile class s)) eqn:Hrest; [done|].
  by apply Hk.
Qed.

Lemma length_dropWhile p s : String.length (dropWhile p s) <= String.length s.
Proof.
  rewrite <- (take_drop_while p s) at 2. rewrite length_append. lia.
Qed.

Lemma prefix_takeWhile p s :
  prefix (String.length s - String.length (dropWhile p s)) s = takeWhile p s.
Proof.
  induction s as [|c s IH]; [done|].
  simpl dropWhile. simpl takeWhile. destruct (p c).
  - pose proof (length_dropWhile p s).
    replace (String.length (String c s) - String.length (dropWhile p s))
      with (S (String.length s - String.length (dropWhile p s)))
      by (simpl; lia).
    simpl. by rewrite IH.
  - by rewrite Nat.sub_diag.
Qed.

(** The scan with its character tests spelled out. *)
Lemma scan_at_eq s :
  scan_at s =
  match s with
  | String c0 (String c1 s1) =>
      if Ascii.eqb c0 "{" && Ascii.eqb c1 "{" then
        let s2 := dropWhile is_space s1 in
        let key := takeWhile is_keychar s2 in
        let s4 := dropWhile is_space (dropWhile is_keychar s2) in
        match key, s4 with
        | String _ _, String d0 (String d1 s5) =>
            if Ascii.eqb d0 "}" && Ascii.eqb d1 "}"
            then Some (key, String.length s - String.length s5) else None
        | _, _ => None
        end
      else None
  | _ => None
  end.
Proof.
  unfold scan_at.
  destruct s as [|c0 [|c1 s1]]; [done| |].
  { by_character c0. }
  destruct (Ascii.eqb_spec c0 "{") as [->|Hc0];
    [|by_character c0].
  destruct (Ascii.eqb_spec c1 "{") as [->|Hc1];
    [|by_character c1].
  cbv zeta. simpl andb. cbv iota.
  destruct (takeWhile is_keychar (dropWhile is_space s1)); [done|].
  destruct (dropWhile is_space (dropWhile is_keychar (dropWhile is_space s1)))
    as [|d0 [|d1 s5]]; [done| |].
  { by_character d0. }
  destruct (Ascii.eqb_spec d0 "}") as [->|Hd0];
    [|by_character d0].
  destruct (Ascii.eqb_spec d1 "}") as [->|Hd1];
    [|by_character d1].
  done.
Qed.

(** The backtracking engine, run on the pattern, is the scan. *)
Lemma match_at_scan s : match_at s = scan_at s.
Proof.
  rewrite scan_at_eq. unfold match_at, exec, pattern.
  destruct s as [|c0 [|c1 s1]]; [done|simpl; by destruct (Ascii.eqb c0 "{")|].
  cbn [run]. destruct (Ascii.eqb c0 "{"); [|done].
  destruct (Ascii.eqb c1 "{"); [|done].
  simpl andb. cbv iota zeta.
  (* the white space before the key *)
  rewrite star_greedy.
  2:{ intros g c t Hc. by rewrite (space_not_keychar _ Hc). }
  destruct (dropWhile is_space s1) as [|d s2]; [done|].
  simpl takeWhile. simpl dropWhile.
  destruct (is_keychar d) eqn:Hd; [|done].
  (* the key *)
  rewrite star_greedy.
  2:{ intros g c t Hc. simpl. rewrite (keychar_not_space _ Hc).
      by destruct (Ascii.eqb_spec c "}") as [->|]. }
  pose proof (prefix_takeWhile is_keychar (String d s2)) as Hkey.
  simpl takeWhile in Hkey. simpl dropWhile in Hkey. rewrite Hd in Hkey.
  rewrite Hkey. clear Hkey.
  (* the white space after the key *)
  rewrite star_greedy.
  2:{ intros g c t Hc. by destruct (Ascii.eqb_spec c "}") as [->|]. }
  destruct (dropWhile is_space (dropWhile is_keychar s2)) as [|d0 [|d1 s5]];
    [done|by destruct (Ascii.eqb d0 "}")|].
  destruct (Ascii.eqb d0 "}"); [|done].
  by destruct (Ascii.eqb d1 "}").
Qed.

(** *** What the pattern matches *)

(** The text that follows the opening braces of a well-formed placeholder. *)
Lemma text_unfold ws1 key ws2 post :
  text ws1 key ws2 +:+ post
  = String "{" (String "{" (ws1 +:+ key +:+ ws2 +:+ String "}" (String "}" post))).
Proof.
  unfold text. rewrite !append_cons, append_nil_l, !append_assoc.
  by rewrite !append_cons, append_nil_l.
Qed.

Lemma length_text ws1 key ws2 :
  String.length (text ws1 key ws2)
  = 4 + String.length ws1 + String.length key + String.length ws2.
Proof.
  rewrite <- (append_nil_r (text ws1 key ws2)), text_unfold. simpl.
  rewrite !length_append. simpl. lia.
Qed.

(** Completeness of one attempt: at a well-formed placeholder the pattern
    matches, captures its key and consumes it entirely. *)
Lemma match_at_text ws1 key ws2 post :
  WellFormed ws1 key ws2 ->
  match_at (text ws1 key ws2 +:+ post)
  = Some (key, String.length (text ws1 key ws2)).
Proof.
  intros [Hws1 Hkey Hne Hws2].
  destruct key as [|k key]; [done|].
  simpl in Hkey. apply andb_prop in Hkey as [Hk Hkey].
  rewrite match_at_scan, text_unfold. unfold scan_at.
  (* the white space before the key *)
  assert (dropWhile is_space (ws1 +:+ String k key +:+ ws2 +:+ "}}" +:+ post)
          = String k key +:+ ws2 +:+ "}}" +:+ post) as E1.
  { rewrite append_cons, dropWhile_app_stop by by apply keychar_not_space.
    by rewrite dropWhile_all. }
  assert (forall u, takeWhile is_keychar (ws2 +:+ String "}" u) = ""
                  /\ dropWhile is_space (ws2 +:+ String "}" u) = String "}" u) as E2.
  { intros u. split.
    - destruct ws2 as [|w ws2]; [done|].
      simpl in Hws2. apply andb_prop in Hws2 as [Hw _].
      rewrite append_cons. simpl. by rewrite (space_not_keychar _ Hw).
    - rewrite dropWhile_app_stop by done. by rewrite dropWhile_all. }
  change (String "}" (String "}" post)) with ("}}" +:+ post).
  rewrite E1.
  assert (takeWhile is_keychar (String k key +:+ ws2 +:+ "}}" +:+ post) = String k key) as E3.
  { destruct ws2 as [|w ws2].
    - rewrite append_nil_l. change ("}}" +:+ post) with (String "}" (String "}" post)).
      rewrite takeWhile_app_stop by done. apply takeWhile_all. simpl. by rewrite Hk.
    - simpl in Hws2. apply andb_prop in Hws2 as [Hw _].
      rewrite (append_cons w), takeWhile_app_stop by by apply space_not_keychar.
      apply takeWhile_all. simpl. by rewrite Hk. }
  assert (dropWhile is_keychar (String k key +:+ ws2 +:+ "}}" +:+ post)
          = ws2 +:+ "}}" +:+ post) as E4.
  { pose proof (take_drop_while is_keychar (String k key +:+ ws2 +:+ "}}" +:+ post)) as E.
    rewrite E3 in E. by apply (inj (String.app (String k key))) in E. }
  rewrite E3, E4.
  change ("}}" +:+ post) with (String "}" (String "}" post)).
  rewrite (proj2 (E2 _)).
  f_equal. f_equal.
  rewrite length_text. repeat (rewrite length_append || simpl). lia.
Qed.

(** A text begins with at most one placeholder: two readings of its start
    as a well-formed placeholder have the same key and the same length. *)
Lemma placeholder_unique ws1 key ws2 post ws1' key' ws2' post' :
  WellFormed ws1 key ws2 ->
  WellFormed ws1' key' ws2' ->
  text ws1 key ws2 +:+ post = text ws1' key' ws2' +:+ post' ->
  key = key'
  /\ String.length (text ws1 key ws2) = String.length (text ws1' key' ws2').
Proof.
  intros Hwf Hwf' Heq.
  pose proof (match_at_text ws1 key ws2 post Hwf) as H1.
  rewrite Heq, (match_at_text ws1' key' ws2' post' Hwf') in H1.
  pose proof (f_equal (option_map fst) H1) as Hkey.
  pose proof (f_equal (option_map snd) H1) as Hlen.
  cbn [option_map fst snd] in Hkey, Hlen. split; congruence.
Qed.

(** Soundness of one attempt: what the pattern matches is a well-formed
    placeholder with the captured key. *)
Lemma match_at_sound s key n :
  match_at s = Some (key, n) ->
  exists ws1 ws2 post,
    s = text ws1 key ws2 +:+ post /\ WellFormed ws1 key ws2
    /\ n = String.length (text ws1 key ws2).
Proof.
  rewrite match_at_scan, scan_at_eq.
  destruct s as [|c0 [|c1 s1]]; try done.
  destruct (Ascii.eqb_spec c0 "{") as [->|]; [|done].
  destruct (Ascii.eqb_spec c1 "{") as [->|]; [|done].
  simpl andb. cbv iota zeta.
  set (s2 := dropWhile is_space s1).
  set (s3 := dropWhile is_keychar s2).
  destruct (takeWhile is_keychar s2) as [|k key'] eqn:Ekey; [done|].
  destruct (dropWhile is_space s3) as [|d0 [|d1 s5]] eqn:Es4; try done.
  destruct (Ascii.eqb_spec d0 "}") as [->|]; [|done].
  destruct (Ascii.eqb_spec d1 "}") as [->|]; [|done].
  intros [= <- <-].
  exists (takeWhile is_space s1), (takeWhile is_space s3), s5.
  assert (s1 = takeWhile is_space s1 +:+ String k key' +:+ takeWhile is_space s3
               +:+ String "}" (String "}" s5)) as Es1.
  { rewrite <- Es4, take_drop_while.
    rewrite <- Ekey. subst s3. rewrite take_drop_while.
    subst s2. by rewrite take_drop_while. }
  split; [|split].
  - rewrite text_unfold. by rewrite <- Es1.
  - split; [apply all_takeWhile | rewrite <- Ekey; apply all_takeWhile
           | done | apply all_takeWhile].
  - rewrite length_text. rewrite Es1 at 1.
    repeat (rewrite length_append || simpl). lia.
Qed.

(** An attempt is decided before the next pair of opening braces: a match
    never runs into a placeholder that follows. *)
Lemma match_at_before_open s u :
  s <> "" ->
  match_at (s +:+ String "{" (String "{" u)) = match_at s.
Proof.
  intros Hs. rewrite !match_at_scan, !scan_at_eq.
  destruct s as [|c0 [|c1 s1]]; [done| |].
  - rewrite append_cons, append_nil_l.
    destruct (Ascii.eqb c0 "{"); done.
  - rewrite !append_cons.
    destruct (Ascii.eqb c0 "{" && Ascii.eqb c1 "{"); [|done].
    cbv zeta.
    rewrite (dropWhile_app_stop is_space s1) by done.
    rewrite (takeWhile_app_stop is_keychar) by done.
    rewrite (dropWhile_app_stop is_keychar) by done.
    rewrite (dropWhile_app_stop is_space) by done.
    destruct (takeWhile is_keychar (dropWhile is_space s1)); [done|].
    destruct (dropWhile is_space (dropWhile is_keychar (dropWhile is_space s1)))
      as [|d0 [|d1 s5]]; [done| |].
    + rewrite append_cons, append_nil_l.
      destruct (Ascii.eqb d0 "}"); done.
    + rewrite !append_cons.
      destruct (Ascii.eqb d0 "}" && Ascii.eqb d1 "}"); [|done].
      do 2 f_equal. repeat (rewrite length_append || simpl). lia.
Qed.

(** ** The scan *)

#[local] Arguments match_at : simpl never.

Section Replace.

Context (callback : string -> Completion string).

Lemma replace_from_skip a b :
  replace_from (String.length a) callback (a +:+ b) = replace_from 0 callback b.
Proof. induction a as [|c a IH]; [done|]. rewrite append_cons. simpl. apply IH. Qed.

(** At a match, the callback's result stands for the match and the scan goes
    on behind it. *)
Lemma replace_match m key rest :
  match_at (m +:+ rest) = Some (key, String.length m) ->
  replace callback (m +:+ rest)
  = (r <- callback key ;; q <- replace callback rest ;; Normal (r +:+ q))%js.
Proof.
  intros Hm. unfold replace.
  destruct m as [|c m].
  { apply match_at_sound in Hm as (ws1 & ws2 & post & _ & _ & Hlen).
    rewrite length_text in Hlen. done. }
  rewrite append_cons in *. simpl. rewrite Hm. simpl.
  by rewrite Nat.sub_0_r, replace_from_skip.
Qed.

Lemma replace_no_match c s :
  match_at (String c s) = None ->
  replace callback (String c s)
  = (q <- replace callback s ;; Normal (String c q))%js.
Proof. intros Hm. unfold replace. simpl. by rewrite Hm. Qed.

(** The scan of a text that ends in a placeholder followed by [post] is the
    scan of what precedes the placeholder, the replacement of the
    placeholder, and the scan of [post]. *)
Lemma replace_placeholder pre ws1 key ws2 post :
  WellFormed ws1 key ws2 ->
  replace callback (pre +:+ text ws1 key ws2 +:+ post)
  = (p <- replace callback pre ;;
     r <- callback key ;;
     q <- replace callback post ;;
     Normal (p +:+ r +:+ q))%js.
Proof.
  intros Hwf.
  remember (String.length pre) as n eqn:Hn.
  revert pre Hn. induction n as [n IH] using lt_wf_ind. intros pre ->.
  destruct pre as [|c pre].
  - rewrite append_nil_l, (replace_match (text ws1 key ws2) key post)
      by by apply match_at_text.
    unfold replace at 2. simpl.
    destruct (callback key); [|done]. simpl.
    destruct (replace callback post); done.
  - pose proof (match_at_before_open (String c pre)
                  (ws1 +:+ key +:+ ws2 +:+ String "}" (String "}" post))) as Hcross.
    rewrite <- text_unfold in Hcross. specialize (Hcross ltac:(done)).
    destruct (match_at (String c pre)) as [[k len]|] eqn:Hm.
    + destruct (match_at_sound _ _ _ Hm) as (w1 & w2 & rest & Hpre & Hw & Hlen).
      rewrite Hpre in *. rewrite append_assoc.
      rewrite append_assoc in Hcross. subst len.
      rewrite (replace_match _ _ _ Hcross), (replace_match _ _ _ Hm).
      destruct (callback k) as [r0|]; [|done]. simpl.
      rewrite (IH (String.length rest)); [| |done].
      2:{ rewrite length_append, length_text. lia. }
      destruct (replace callback rest) as [p|]; [|done]. simpl.
      destruct (callback key) as [r|]; [|done]. simpl.
      destruct (replace callback post) as [q|]; [|done]. simpl.
      by rewrite append_assoc.
    + rewrite append_cons in *.
      rewrite (replace_no_match _ _ Hcross), (replace_no_match _ _ Hm).
      rewrite (IH (String.length pre)); [|simpl; lia|done].
      destruct (replace callback pre) as [p|]; [|done]. simpl.
      destruct (callback key) as [r|]; [|done]. simpl.
      destruct (replace callback post) as [q|]; done.
Qed.

(** A text in which the pattern matches nowhere is left as it is. *)
Lemma replace_unmatched s :
  (forall s1 s2, s = s1 +:+ s2 -> match_at s2 = None) ->
  replace callback s = Normal s.
Proof.
  induction s as [|c s IH]; intros Hno; [done|].
  rewrite replace_no_match by by apply (Hno "").
  rewrite IH; [done|].
  intros s1 s2 ->. by apply (Hno (String c s1)).
Qed.

Lemma replace_no_occurrence s :
  ~ Occurs s -> replace callback s = Normal s.
Proof.
  intros Hno. apply replace_unmatched. intros s1 s2 -> .
  destruct (match_at s2) as [[key n]|] eqn:Hm; [|done].
  destruct Hno.
  apply match_at_sound in Hm as (ws1 & ws2 & post & -> & Hwf & _).
  by exists s1, ws1, key, ws2, post.
Qed.


End Replace.

End PlaceholderFacts.

(** ** Substitution *)

Module PromptFacts.

Import Chars Str StrFacts Placeholder PlaceholderFacts PromptManager.
#[local] Open Scope js_scope.

Lemma or_empty_id s : or_empty s = s.
Proof. by destruct s. Qed.

Lemma cmap_or_empty c : cmap or_empty c = c.
Proof. destruct c; [|done]. simpl. by rewrite or_empty_id. Qed.

Lemma split_cons sep s : exists k keys, split sep s = k :: keys.
Proof.
  induction s as [|c s (k & keys & IH)]; [by eexists _, _|].
  simpl. destruct (Ascii.eqb c sep); [by eexists _, _|].
  rewrite IH. by eexists _, _.
Qed.

Section WithRuntime.

Context (rt : Runtime).

Lemma manualCompile_string s vars :
  manualCompile rt (JStr s) vars = Placeholder.replace (render rt vars) s.
Proof. done. Qed.

Lemma reduce_undefined keys : reduce rt keys JUndefined = Normal JUndefined.
Proof. induction keys; [done|]. simpl. apply IHkeys. Qed.

Lemma reduce_app keys1 keys2 acc :
  reduce rt (keys1 ++ keys2) acc
  = (acc' <- reduce rt keys1 acc ;; reduce rt keys2 acc').
Proof.
  revert acc. induction keys1 as [|k keys1 IH]; intros acc; [done|].
  simpl. destruct (step rt acc k); [|done]. simpl. apply IH.
Qed.

(** The lookup fails at a falsy value and at a missing property. *)
Lemma step_undefined acc k :
  Js.truthy acc = false \/ Js.get rt acc k = Normal JUndefined ->
  step rt acc k = Normal JUndefined.
Proof. unfold step. intros [-> | Hget]; [done|]. rewrite Hget. by destruct (Js.truthy acc). Qed.

Lemma reduce_stuck before k after vars acc :
  reduce rt before vars = Normal acc ->
  Js.truthy acc = false \/ Js.get rt acc k = Normal JUndefined ->
  reduce rt (before ++ k :: after) vars = Normal JUndefined.
Proof.
  intros Hbefore Hstuck. rewrite reduce_app, Hbefore. simpl.
  rewrite step_undefined by done. simpl. apply reduce_undefined.
Qed.

(** Successive key lookup through mappings is what [reduce] computes. *)
Lemma reduce_resolves vars keys v :
  Spec.Resolves vars keys v -> reduce rt keys vars = Normal v.
Proof.
  induction 1 as [v|props k keys x v Hk Hres IH]; [done|].
  simpl. unfold step. simpl. rewrite Hk. simpl.
  destruct x; simpl; rewrite ?Hk; simpl; done.
Qed.

Lemma render_nullish vars key v :
  reduce rt (split "." key) vars = Normal v ->
  Js.nullish v = true ->
  render rt vars key = Normal "".
Proof. unfold render. intros -> Hv. simpl. by rewrite Hv. Qed.

Lemma render_value vars key v s :
  reduce rt (split "." key) vars = Normal v ->
  Js.nullish v = false ->
  Js.ToString v = Normal s ->
  render rt vars key = Normal s.
Proof. unfold render. intros -> Hv Hs. simpl. by rewrite Hv. Qed.

Lemma render_empty vars key :
  reduce rt (split "." key) vars = Normal JUndefined ->
  render rt vars key = Normal "".
Proof. unfold render. by intros ->. Qed.

(** Substitution at one placeholder, given what the placeholder renders to. *)
Lemma manualCompile_placeholder pre ws1 key ws2 post vars r :
  WellFormed ws1 key ws2 ->
  render rt vars key = Normal r ->
  manualCompile rt (JStr (pre +:+ text ws1 key ws2 +:+ post)) vars
  = (p <- manualCompile rt (JStr pre) vars ;;
     q <- manualCompile rt (JStr post) vars ;;
     Normal (p +:+ r +:+ q)).
Proof.
  intros Hwf Hr. rewrite !manualCompile_string.
  rewrite replace_placeholder by done.
  destruct (replace (render rt vars) pre); [|done]. simpl.
  by rewrite Hr.
Qed.

Lemma manualCompile_fallback vars :
  manualCompile rt (JStr FALLBACK) vars = Normal FALLBACK.
Proof. vm_compute. reflexivity. Qed.

(** In the empty mapping a key renders as nothing unless the empty object
    inherits a member under the key's first segment. *)
Lemma render_in_empty key :
  inherited rt (JObj ∅) (Spec.firstSegment key) = Normal JUndefined ->
  render rt (JObj ∅) key = Normal "".
Proof.
  unfold Spec.firstSegment. intros Hinh. apply render_empty.
  destruct (split_cons "." key) as (k & keys & E). rewrite E in *. simpl in *.
  unfold step. simpl. rewrite lookup_empty, Hinh. simpl.
  apply reduce_undefined.
Qed.

End WithRuntime.

End PromptFacts.

(** ** The tiers of [generatePrompt] *)

Module ResolutionFacts.

Import Chars Str StrFacts Placeholder PlaceholderFacts PromptManager PromptFacts.
#[local] Open Scope js_scope.

Lemma nonempty_length s : s <> "" <-> (0 <? String.length s)%nat = true.
Proof. destruct s; simpl; split; done. Qed.

Lemma empty_length s : s = "" <-> (0 <? String.length s)%nat = false.
Proof. destruct s; simpl; split; done. Qed.

Lemma remoteCalls_app tr evs :
  remoteCalls (tr ++ evs) = remoteCalls tr ++ remoteCalls evs.
Proof. apply List.filter_app. Qed.

Section WithRuntime.

Context (rt : Runtime).

Lemma generatePrompt_unnamed langfuse details tr :
  Js.truthy (prompt_name details) = false ->
  generatePrompt rt langfuse details tr
  = (Throw (Error "Missing prompt_name in details"), tr).
Proof. intros Hname. unfold generatePrompt. by rewrite Hname. Qed.

Lemma generatePrompt_inline langfuse details tr :
  Js.truthy (prompt_name details) = true ->
  promptText details <> "" ->
  generatePrompt rt langfuse details tr
  = (manualCompile rt (JStr (promptText details))
       (normalizeVariables rt (prompt_variables details)), tr).
Proof.
  intros Hname Htext%nonempty_length. unfold generatePrompt.
  rewrite Hname, Htext. cbn [negb]. unfold Eff.lift. by rewrite cmap_or_empty.
Qed.

Lemma generatePrompt_not_configured details tr :
  Js.truthy (prompt_name details) = true ->
  promptText details = "" ->
  generatePrompt rt None details tr
  = (Normal FALLBACK,
     tr ++ [ConsoleLog "[Langfuse] Not configured. Using fallback prompt."]).
Proof.
  intros Hname Htext%empty_length. unfold generatePrompt.
  rewrite Hname, Htext. cbn [negb].
  unfold Eff.bind, Eff.lift, Eff.emit, Eff.ret.
  by rewrite manualCompile_fallback.
Qed.

Lemma generatePrompt_configured client details tr :
  Js.truthy (prompt_name details) = true ->
  promptText details = "" ->
  generatePrompt rt (Some client) details tr
  = match fetchAndCompile rt client (prompt_name details)
            (Js.or_else (prompt_label details) JUndefined)
            (normalizeVariables rt (prompt_variables details)) tr with
    | (Normal s, tr') => (Normal s, tr')
    | (Throw e, tr') =>
        (Normal FALLBACK,
         tr' ++ [ConsoleError "Error fetching/compiling prompt from Langfuse:" e])
    end.
Proof.
  intros Hname Htext%empty_length. unfold generatePrompt.
  rewrite Hname, Htext. cbn [negb]. unfold Eff.try_catch.
  destruct (fetchAndCompile _ _ _ _ _ _) as [[s|e] tr']; [done|].
  unfold Eff.bind, Eff.lift, Eff.emit. by rewrite manualCompile_fallback.
Qed.

(** The remote tier, spelled out along the outcome of the lookup. *)
Lemma fetchAndCompile_outcome client details tr :
  let name := prompt_name details in
  let first := PromptGet name (Spec.labelOf details) in
  let variables := normalizeVariables rt (prompt_variables details) in
  let finish fetched tr' :=
    match fetched with
    | NoPrompt =>
        (match notFoundMessage name (Js.or_else (prompt_label details) JUndefined) with
         | Normal message => Throw (Error message)
         | Throw e => Throw e
         end, tr')
    | Prompt compile prompt =>
        match compileFetched rt compile prompt variables with
        | Normal s =>
            (Normal s, tr' ++ [ConsoleLog ("[Langfuse] Prompt (compiled):" +:+ LF +:+ s)])
        | Throw e => (Throw e, tr')
        end
    end in
  fetchAndCompile rt client name (Js.or_else (prompt_label details) JUndefined)
    variables tr
  = match prompt_get client tr name (Spec.labelOf details) with
    | Resolved fetched => finish fetched (tr ++ [first])
    | Rejected _ =>
        match prompt_get client (tr ++ [first]) name None with
        | Resolved fetched => finish fetched (tr ++ [first; PromptGet name None])
        | Rejected e => (Throw e, tr ++ [first; PromptGet name None])
        end
    end.
Proof.
  intros name first variables finish. subst first finish. cbv beta.
  unfold fetchAndCompile, Spec.labelOf, Js.or_else.
  unfold Eff.bind, Eff.try_catch, Eff.get, Eff.lift, Eff.throw, Eff.emit, Eff.ret.
  destruct (Js.truthy (prompt_label details)) eqn:Hlabel; rewrite ?Hlabel; simpl.
  all: destruct (prompt_get client tr name _) as [fetched|e1];
    [|destruct (prompt_get client (tr ++ _) name None) as [fetched|e2];
      rewrite <- ?List.app_assoc; simpl; [|done]].
  all: destruct fetched as [|compile prompt]; simpl;
    [by destruct (notFoundMessage _ _) | by destruct (compileFetched _ _ _ _)].
Qed.

End WithRuntime.

End ResolutionFacts.

(** ** The handler and the table *)

Module ServerFacts.

Import Db Server.
#[local] Open Scope js_scope.

Lemma mediaMode_cases m : mediaMode m = "audio_only" \/ mediaMode m = "audio_video".
Proof. unfold mediaMode. destruct (Js.is_string _ m); auto. Qed.

Lemma mediaMode_video m : mediaMode m = "audio_video" <-> m = JStr "audio_video".
Proof.
  unfold mediaMode, Js.is_string. split.
  - destruct m as [| | | |s| | |]; try done.
    destruct (String.eqb_spec s "audio_video"); [by subst|done].
  - by intros ->.
Qed.

(** The handler normalises before it calls [insertConversation], which
    normalises again; the second time changes nothing. *)
Lemma mediaMode_idempotent m : mediaMode (JStr (mediaMode m)) = mediaMode m.
Proof. unfold mediaMode. by destruct (Js.is_string _ m). Qed.

Lemma readFields_media_mode rt body f :
  readFields rt body = Normal f ->
  Js.get rt body "media_mode" = Normal (f_media_mode f).
Proof.
  unfold readFields, cbind. intros Hread.
  repeat case_match; by simplify_eq.
Qed.

(** The table after [insertConversation]: untouched when the database
    refuses the id or the row, the row stored under its uuid otherwise. *)
Lemma insertConversation_table pg params table result table' :
  insertConversation pg params table = (result, table') ->
  table' = table
  \/ exists uuid created_at,
       pg_uuid pg (id params) = Some uuid
       /\ table' = <[uuid := rowOf uuid created_at params]> table.
Proof.
  unfold insertConversation.
  destruct (pg_uuid pg (id params)) as [uuid|]; [|intros [= <- <-]; auto].
  cbv zeta. destruct (pg_refuses pg _); intros [= <- <-]; [auto|].
  right. by eexists _, _.
Qed.

Lemma store_table rt pg sv body f table result table' :
  store rt pg sv body f table = (result, table') ->
  table' = table
  \/ exists id uuid created_at, table' = <[uuid :=
       rowOf uuid created_at
             {| id := id;
                conversation_type := f_conversation_type f;
                prompt_name := f_prompt_name f;
                prompt_label := f_prompt_label f;
                agent_name := f_agent_name f;
                webhook_link := f_webhook_link f;
                company_name := f_company_name f;
                prompt_text := f_prompt_text f;
                agent_description := f_agent_description f;
                media_mode := JStr (mediaMode (f_media_mode f));
                prompt_variables := objectOrEmpty (f_prompt_variables f);
                ui_variables := objectOrEmpty (f_ui_variables f);
                complete_screen := objectOrEmpty (f_complete_screen f) |}]> table.
Proof.
  unfold store. intros Hstore.
  destruct (pg_init pg); [|left; by simplify_eq].
  destruct (conversationId rt sv body) as [id|]; [|left; by simplify_eq].
  destruct (insertConversation pg _ table) as [result0 table0] eqn:Hinsert.
  apply insertConversation_table in Hinsert as [->|(uuid & created_at & _ & ->)].
  - left. destruct result0; by simplify_eq.
  - right. exists id, uuid, created_at. destruct result0; by simplify_eq.
Qed.

(** What the handler does to the table: nothing, or one row stored, whose
    [media_mode] is the normal form of what the request supplied. *)
Lemma postConversations_table rt pg sv text table response table' :
  postConversations rt pg sv text table = (response, table') ->
  table' = table
  \/ exists id row supplied,
       table' = <[id := row]> table
       /\ suppliedMediaMode rt text = Normal supplied
       /\ col_media_mode row = mediaMode supplied.
Proof.
  unfold postConversations, suppliedMediaMode. intros Hpost.
  destruct (readJsonBody rt text) as [body|]; simpl in Hpost;
    [|left; by simplify_eq].
  destruct (readFields rt body) as [f|] eqn:Hread; simpl in Hpost;
    [|left; by simplify_eq].
  apply readFields_media_mode in Hread.
  destruct (negb _ || negb _ || negb _); [left; by simplify_eq|].
  destruct (store rt pg sv body f table) as [result table0] eqn:Hstore.
  assert (table' = table0) as -> by (destruct result; by simplify_eq).
  apply store_table in Hstore as [->|(id0 & uuid & created_at & ->)]; [by left|].
  right. eexists uuid, _, (f_media_mode f). split; [done|]. split; [done|].
  simpl. apply mediaMode_idempotent.
Qed.

(** The handler keeps a table in which every [media_mode] is one of the two
    modes that way. *)
Lemma postConversations_keeps_modes rt pg sv text table response table' :
  postConversations rt pg sv text table = (response, table') ->
  (forall id row, table !! id = Some row ->
     col_media_mode row = "audio_only" \/ col_media_mode row = "audio_video") ->
  forall id row, table' !! id = Some row ->
    col_media_mode row = "audio_only" \/ col_media_mode row = "audio_video".
Proof.
  intros Hpost Hinv id row Hrow.
  apply postConversations_table in Hpost
    as [->|(id0 & row0 & supplied & -> & _ & Hmode)]; [by eapply Hinv|].
  destruct (decide (id0 = id)) as [->|Hid].
  - rewrite lookup_insert_eq in Hrow. simplify_eq. rewrite Hmode.
    apply mediaMode_cases.
  - rewrite lookup_insert_ne in Hrow by done. by eapply Hinv.
Qed.

End ServerFacts.

(** * What the specification says *)

Import Chars Str Placeholder PromptManager.
Import StrFacts PlaceholderFacts PromptFacts ResolutionFacts ServerFacts.
#[local] Open Scope js_scope.

(** ** Prompt resolution *)

(** C1, as the code has it.  The name is required even when an inline text
    is given: a request whose name is missing or falsy is rejected with
    [Missing prompt_name in details], inline text or not.  With a name, a
    non-blank inline text is trimmed and the variables are substituted into
    it, and the call completes as that substitution completes, the trace left
    as it was: with the substituted text when the substitution returns one,
    with its error when it throws (the conversion of a value to a string can
    throw).  A text without placeholders is returned as it is, trimmed.  The
    named request [{name, inlineText: "Hi {{ missing.path }}", variables: {}}]
    yields ["Hi "] when objects inherit no member called [missing]. *)
Theorem inline_text_requires_name rt langfuse details tr :
  promptText details <> "" ->
  (Js.truthy (prompt_name details) = false ->
   generatePrompt rt langfuse details tr
   = (Throw (Error "Missing prompt_name in details"), tr))
  /\ (Js.truthy (prompt_name details) = true ->
      generatePrompt rt langfuse details tr
      = (manualCompile rt (JStr (promptText details))
           (normalizeVariables rt (prompt_variables details)), tr)
      /\ (forall s,
            manualCompile rt (JStr (promptText details))
              (normalizeVariables rt (prompt_variables details)) = Normal s ->
            generatePrompt rt langfuse details tr = (Normal s, tr))
      /\ (forall e,
            manualCompile rt (JStr (promptText details))
              (normalizeVariables rt (prompt_variables details)) = Throw e ->
            generatePrompt rt langfuse details tr = (Throw e, tr))
      /\ (~ Occurs (promptText details) ->
          generatePrompt rt langfuse details tr = (Normal (promptText details), tr)))
  /\ (Js.truthy (prompt_name details) = true ->
      prompt_text details = JStr "Hi {{ missing.path }}" ->
      prompt_variables details = JObj ∅ ->
      inherited rt (JObj ∅) "missing" = Normal JUndefined ->
      generatePrompt rt langfuse details tr = (Normal "Hi ", tr)).
Proof.
  intros Htext. split; [|split].
  - apply generatePrompt_unnamed.
  - intros Hname. rewrite generatePrompt_inline by done.
    split; [done|]. split; [by intros s ->|]. split; [by intros e ->|].
    intros Hno. by rewrite manualCompile_string, replace_no_occurrence.
  - intros Hname Hinline Hvars Hmissing.
    rewrite generatePrompt_inline by done.
    unfold promptText, promptTextRaw. rewrite Hinline, Hvars.
    change (trim "Hi {{ missing.path }}")
      with ("Hi " +:+ text " " "missing.path" " " +:+ "").
    change (normalizeVariables rt (JObj ∅)) with (JObj ∅).
    rewrite (manualCompile_placeholder rt _ _ _ _ _ _ "").
    + done.
    + by split.
    + by apply render_in_empty.
Qed.

(** The named request resolves to ["Hi "]. *)
Lemma inline_text_requires_name_witness :
  generatePrompt Node.runtime None Examples.inlineNamed [] = (Normal "Hi ", []).
Proof.
  refine (proj2 (proj2 (inline_text_requires_name Node.runtime None
                          Examples.inlineNamed [] _)) _ _ _ _);
    try reflexivity.
  vm_compute. discriminate.
Defined.

(** C1 as stated fails: the request of the claim, which has an inline text
    and no name, is rejected instead of resolving to ["Hi "]. *)
Lemma inline_text_without_name_is_rejected :
  promptText Examples.inlineOnly = "Hi {{ missing.path }}"
  /\ generatePrompt Node.runtime None Examples.inlineOnly []
     = (Throw (Error "Missing prompt_name in details"), []).
Proof. split; reflexivity. Qed.

(** C2.  For a request with a name, the remote tier never makes
    [generatePrompt] throw.  Without inline text the call returns a string
    whatever the client does, and the static fallback template whenever the
    remote tier fails (no client, a rejected lookup, nothing found, a prompt
    that does not compile).  The call can only throw on the inline path,
    where the trace is left as it was: the service was not contacted. *)
Theorem remote_failure_is_never_thrown rt langfuse details tr :
  Js.truthy (prompt_name details) = true ->
  (promptText details = "" ->
   exists s tr',
     generatePrompt rt langfuse details tr = (Normal s, tr')
     /\ (Spec.RemoteFailure rt langfuse details tr -> s = FALLBACK))
  /\ (forall e tr',
        generatePrompt rt langfuse details tr = (Throw e, tr') ->
        promptText details <> "" /\ tr' = tr).
Proof.
  intros Hname.
  assert (promptText details = "" ->
          exists s tr',
            generatePrompt rt langfuse details tr = (Normal s, tr')
            /\ (Spec.RemoteFailure rt langfuse details tr -> s = FALLBACK)) as Hremote.
  { intros Htext. destruct langfuse as [client|].
    - rewrite generatePrompt_configured by done.
      rewrite fetchAndCompile_outcome. cbv zeta.
      unfold Spec.RemoteFailure, Spec.lookupOutcome.
      destruct (prompt_get client tr _ _) as [fetched|e1];
        [|destruct (prompt_get client (tr ++ _) _ None) as [fetched|e2]];
        try (by eexists _, _).
      all: destruct fetched as [|compile prompt];
        [destruct (notFoundMessage _ _); by eexists _, _|].
      all: destruct (compileFetched _ _ _ _) as [s|e] eqn:Hcompile;
        eexists _, _; (split; [done|]); by intros [e' ?].
    - rewrite generatePrompt_not_configured by done. by eexists _, _. }
  split; [done|].
  intros e tr' Hthrow.
  destruct (decide (promptText details = "")) as [Htext|Htext].
  - destruct (Hremote Htext) as (s & tr'' & Hs & _). congruence.
  - rewrite generatePrompt_inline in Hthrow by done. by simplify_eq.
Qed.

(** With a service that rejects every call, the labelled request resolves
    to the fallback template. *)
Lemma remote_failure_is_never_thrown_witness :
  exists tr',
    generatePrompt Node.runtime (Some Examples.unreachable) Examples.labelled []
    = (Normal FALLBACK, tr').
Proof.
  destruct (remote_failure_is_never_thrown Node.runtime (Some Examples.unreachable)
              Examples.labelled [] eq_refl) as [Hremote _].
  destruct (Hremote eq_refl) as (s & tr' & Hrun & Hfallback).
  exists tr'. rewrite Hrun. f_equal. f_equal. apply Hfallback. exact I.
Defined.

(** C3, as the code has it.  For a request whose inline text is not blank,
    the call leaves the trace as it was, so the prompt service is not called,
    and it does what it does without a client, whether one is configured or
    not.  If the request has a name, the call completes as the substitution
    of the variables into the trimmed inline text completes: with the
    substituted text when the substitution returns one, with its error when
    it throws.  If the name is missing or falsy, the call is rejected with
    [Missing prompt_name in details]. *)
Theorem inline_text_makes_no_remote_call rt langfuse details tr :
  promptText details <> "" ->
  snd (generatePrompt rt langfuse details tr) = tr
  /\ remoteCalls (snd (generatePrompt rt langfuse details tr)) = remoteCalls tr
  /\ generatePrompt rt langfuse details tr = generatePrompt rt None details tr
  /\ (Js.truthy (prompt_name details) = true ->
      generatePrompt rt langfuse details tr
      = (manualCompile rt (JStr (promptText details))
           (normalizeVariables rt (prompt_variables details)), tr)
      /\ (forall s,
            manualCompile rt (JStr (promptText details))
              (normalizeVariables rt (prompt_variables details)) = Normal s ->
            generatePrompt rt langfuse details tr = (Normal s, tr))
      /\ (forall e,
            manualCompile rt (JStr (promptText details))
              (normalizeVariables rt (prompt_variables details)) = Throw e ->
            generatePrompt rt langfuse details tr = (Throw e, tr)))
  /\ (Js.truthy (prompt_name details) = false ->
      generatePrompt rt langfuse details tr
      = (Throw (Error "Missing prompt_name in details"), tr)).
Proof.
  intros Htext.
  destruct (Js.truthy (prompt_name details)) eqn:Hname.
  - rewrite !generatePrompt_inline by done. cbn [snd].
    repeat split; try done; by intros ? ->.
  - rewrite !generatePrompt_unnamed by done. done.
Qed.

(** With a client configured, the named inline request leaves the trace as
    it was. *)
Lemma inline_text_makes_no_remote_call_witness :
  generatePrompt Node.runtime (Some Examples.unreachable) Examples.inlineNamed
    [ConsoleLog "started"]
  = (Normal "Hi ", [ConsoleLog "started"]).
Proof.
  refine (eq_trans (proj1 (proj1 (proj2 (proj2 (proj2
                     (inline_text_makes_no_remote_call Node.runtime
                        (Some Examples.unreachable) Examples.inlineNamed
                        [ConsoleLog "started"] _)))) eq_refl)) _);
    [vm_compute; discriminate | reflexivity].
Defined.

(** C3 as stated fails: a request whose inline text is not blank but whose
    name is empty is rejected, so no inline text is returned. *)
Lemma inline_text_with_empty_name_is_rejected :
  promptText Examples.inlineEmptyName = "Be brief."
  /\ generatePrompt Node.runtime (Some Examples.unreachable)
       Examples.inlineEmptyName []
     = (Throw (Error "Missing prompt_name in details"), []).
Proof. split; reflexivity. Qed.

(** C4.  When a label is given and the labelled lookup is rejected, the
    call makes exactly two calls of the service, the labelled one and then
    one without label; if that one resolves to a prompt which compiles to
    [s], the call returns [s]. *)
Theorem labelled_lookup_is_retried_without_label rt client details tr e :
  Js.truthy (prompt_name details) = true ->
  promptText details = "" ->
  Js.truthy (prompt_label details) = true ->
  prompt_get client tr (prompt_name details) (Some (prompt_label details))
  = Rejected e ->
  exists result tr',
    generatePrompt rt (Some client) details tr = (result, tr')
    /\ remoteCalls tr'
       = remoteCalls tr
         ++ [PromptGet (prompt_name details) (Some (prompt_label details));
             PromptGet (prompt_name details) None]
    /\ (forall compile prompt s,
          prompt_get client
            (tr ++ [PromptGet (prompt_name details) (Some (prompt_label details))])
            (prompt_name details) None
          = Resolved (Prompt compile prompt) ->
          compileFetched rt compile prompt
            (normalizeVariables rt (prompt_variables details)) = Normal s ->
          result = Normal s).
Proof.
  intros Hname Htext Hlabel Hfirst.
  rewrite generatePrompt_configured by done.
  rewrite fetchAndCompile_outcome. cbv zeta.
  unfold Spec.labelOf. rewrite Hlabel, Hfirst.
  destruct (prompt_get client (tr ++ _) _ None) as [fetched|e2] eqn:Hretry.
  - destruct fetched as [|compile prompt].
    + destruct (notFoundMessage _ _); eexists _, _; (split; [done|]);
        rewrite !remoteCalls_app; simpl; rewrite app_nil_r; done.
    + destruct (compileFetched _ _ _ _) as [s|e'] eqn:Hcompile;
        eexists _, _; (split; [done|]);
        rewrite !remoteCalls_app; simpl; rewrite ?app_nil_r; (split; [done|]);
        intros compile' prompt' s' [= <- <-] Hs'; congruence.
  - eexists _, _. split; [done|].
    rewrite !remoteCalls_app. simpl. by rewrite app_nil_r.
Qed.

(** With a service that knows the prompt under no label, the labelled
    request is answered by the second call. *)
Lemma labelled_lookup_is_retried_without_label_witness :
  exists tr',
    generatePrompt Node.runtime (Some Examples.unlabelledOnly) Examples.labelled []
    = (Normal "Hello Ada!", tr')
    /\ remoteCalls tr'
       = [PromptGet (JStr "greeting") (Some (JStr "v2"));
          PromptGet (JStr "greeting") None].
Proof.
  destruct (labelled_lookup_is_retried_without_label Node.runtime
              Examples.unlabelledOnly Examples.labelled []
              (ServiceError "404 Not Found") eq_refl eq_refl eq_refl eq_refl)
    as (result & tr' & Hrun & Hcalls & Hresult).
  exists tr'. split; [|exact Hcalls].
  rewrite Hrun. f_equal.
  exact (Hresult None (JStr "Hello {{ user.name }}!") "Hello Ada!" eq_refl eq_refl).
Defined.

(** C5.  When the Langfuse keys are not both set, no client is created; a
    request with a name and without inline text then resolves to the fixed
    default template, and the only event is the console line: the service is
    not called. *)
Theorem missing_credentials_give_the_static_fallback
    rt env construct details tr0 tr :
  hasLangfuseCreds env = false ->
  Js.truthy (prompt_name details) = true ->
  promptText details = "" ->
  initLangfuse env construct tr0 = (Normal None, tr0)
  /\ generatePrompt rt None details tr
     = (Normal "You are a helpful, concise voice assistant. Provide clear, direct answers.",
        tr ++ [ConsoleLog "[Langfuse] Not configured. Using fallback prompt."])
  /\ remoteCalls (snd (generatePrompt rt None details tr)) = remoteCalls tr.
Proof.
  intros Hcreds Hname Htext. split; [|split].
  - unfold initLangfuse. by rewrite Hcreds.
  - by apply generatePrompt_not_configured.
  - rewrite generatePrompt_not_configured by done. simpl.
    rewrite remoteCalls_app. simpl. by rewrite app_nil_r.
Qed.

(** Without keys, the labelled request resolves to the fallback template. *)
Lemma missing_credentials_give_the_static_fallback_witness :
  generatePrompt Node.runtime None Examples.labelled []
  = (Normal "You are a helpful, concise voice assistant. Provide clear, direct answers.",
     [ConsoleLog "[Langfuse] Not configured. Using fallback prompt."]).
Proof.
  exact (proj1 (proj2 (missing_credentials_give_the_static_fallback
                         Node.runtime Examples.noKeys
                         (fun _ _ _ => Normal Examples.unreachable)
                         Examples.labelled [] [] eq_refl eq_refl eq_refl))).
Defined.

(** ** Substitution of variables *)

(** C6, as the code has it.  A placeholder whose path resolves in the
    mapping, by successive key lookup, to a value [v] is replaced by the
    string form of [v] when [v] is neither [undefined] nor [null] and has a
    string form (its conversion to a string returns), and by the empty string
    when [v] is [undefined] or [null]; the rest of the template is
    substituted as it would be on its own. *)
Theorem resolved_placeholder_is_replaced
    rt pre ws1 key ws2 post vars v :
  WellFormed ws1 key ws2 ->
  Spec.Resolves vars (split "." key) v ->
  (forall s,
     Js.nullish v = false ->
     Js.ToString v = Normal s ->
     manualCompile rt (JStr (pre +:+ text ws1 key ws2 +:+ post)) vars
     = (p <- manualCompile rt (JStr pre) vars ;;
        q <- manualCompile rt (JStr post) vars ;;
        Normal (p +:+ s +:+ q)))
  /\ (Js.nullish v = true ->
      manualCompile rt (JStr (pre +:+ text ws1 key ws2 +:+ post)) vars
      = (p <- manualCompile rt (JStr pre) vars ;;
         q <- manualCompile rt (JStr post) vars ;;
         Normal (p +:+ q))).
Proof.
  intros Hwf Hres%(reduce_resolves rt). split.
  - intros s Hv Hs. apply manualCompile_placeholder; [done|].
    by apply render_value with v.
  - intros Hv.
    rewrite (manualCompile_placeholder rt _ _ _ _ _ _ "");
      [done | done | by apply render_nullish with v].
Qed.

(** The template [Hello {{ a.b }}!] with [{a: {b: "x"}}]. *)
Lemma resolved_placeholder_is_replaced_witness :
  manualCompile Node.runtime (JStr "Hello {{ a.b }}!")
    (JObj {[ "a" := JObj {[ "b" := JStr "x" ]} ]})
  = Normal "Hello x!".
Proof.
  refine (proj1 (resolved_placeholder_is_replaced Node.runtime "Hello " " "
                   "a.b" " " "!" (JObj {[ "a" := JObj {[ "b" := JStr "x" ]} ]})
                   (JStr "x") _ _) "x" eq_refl eq_refl).
  - split; [reflexivity | reflexivity | discriminate | reflexivity].
  - eapply Spec.ResolvesStep; [reflexivity|].
    eapply Spec.ResolvesStep; [reflexivity|]. apply Spec.ResolvesHere.
Defined.

(** C6 as stated fails for [null]: the path [a] resolves in [{a: null}] to
    [null], whose string form is ["null"], and the placeholder renders as the
    empty string. *)
Lemma null_renders_as_the_empty_string :
  Spec.Resolves (JObj {[ "a" := JNull ]}) (split "." "a") JNull
  /\ Js.ToString JNull = Normal "null"
  /\ manualCompile Node.runtime (JStr "{{ a }}") (JObj {[ "a" := JNull ]})
     = Normal "".
Proof.
  split; [|split; reflexivity].
  eapply Spec.ResolvesStep; [reflexivity|]. apply Spec.ResolvesHere.
Qed.

(** C7, as the code has it.  A placeholder renders as the empty string, and
    rendering it does not throw, in each of these cases: a segment of its path
    is to be looked up in a falsy value, the lookup of the segments before it
    having ended there; a segment names no property, own or inherited, of the
    value that the segments before it led to; the lookup of the whole path
    ends at [undefined] or [null].  The rest of the template is substituted
    as it would be on its own. *)
Theorem unresolved_placeholder_renders_empty
    rt pre ws1 key ws2 post vars :
  WellFormed ws1 key ws2 ->
  (exists before k after acc,
     split "." key = before ++ k :: after
     /\ reduce rt before vars = Normal acc
     /\ (Js.truthy acc = false \/ Js.get rt acc k = Normal JUndefined))
  \/ (exists v,
        reduce rt (split "." key) vars = Normal v /\ Js.nullish v = true) ->
  render rt vars key = Normal ""
  /\ manualCompile rt (JStr (pre +:+ text ws1 key ws2 +:+ post)) vars
     = (p <- manualCompile rt (JStr pre) vars ;;
        q <- manualCompile rt (JStr post) vars ;;
        Normal (p +:+ q)).
Proof.
  intros Hwf Hcase.
  assert (render rt vars key = Normal "") as Hrender.
  { destruct Hcase as [(before & k & after & acc & Hpath & Hbefore & Hstuck)
                      |(v & Hpath & Hv)].
    - apply render_empty. rewrite Hpath. by eapply reduce_stuck.
    - by apply render_nullish with v. }
  split; [done|].
  by rewrite (manualCompile_placeholder rt _ _ _ _ _ _ "").
Qed.

(** The template [Hi {{ missing.path }}] with the empty mapping. *)
Lemma unresolved_placeholder_renders_empty_witness :
  render Node.runtime (JObj ∅) "missing.path" = Normal ""
  /\ manualCompile Node.runtime (JStr "Hi {{ missing.path }}") (JObj ∅)
     = Normal "Hi ".
Proof.
  refine (unresolved_placeholder_renders_empty Node.runtime "Hi " " "
            "missing.path" " " "" (JObj ∅) _ _).
  - split; [reflexivity | reflexivity | discriminate | reflexivity].
  - left. exists [], "missing", ["path"], (JObj ∅).
    split; [reflexivity|]. split; [reflexivity|]. right. reflexivity.
Defined.

(** C7 as stated fails: in [{a: "abc"}] the path [a.length] does not
    resolve, its intermediate value being a string and no mapping, and yet
    the placeholder renders as ["3"]. *)
Lemma string_value_is_indexed :
  (forall v, ~ Spec.Resolves (JObj {[ "a" := JStr "abc" ]}) (split "." "a.length") v)
  /\ manualCompile Node.runtime (JStr "{{ a.length }}")
       (JObj {[ "a" := JStr "abc" ]})
     = Normal "3".
Proof.
  split; [|reflexivity].
  intros v Hres. inversion Hres as [|props k keys x v' Hk Hrest]; subst.
  rewrite lookup_singleton_eq in Hk. simplify_eq. inversion Hrest.
Qed.




(** C9.  Substitution does not expand what it substitutes.  Where a
    placeholder's path leads to a string [s], the result has [s] itself in
    the placeholder's place, between the substituted text before and the
    substituted text after, whatever [s] contains; so a value that reads
    [{{ x }}] comes out as [{{ x }}].  A template in which no placeholder
    occurs is returned as it is, whatever the mapping. *)
Theorem substitution_is_not_recursive rt vars :
  (forall pre ws1 key ws2 post s,
     WellFormed ws1 key ws2 ->
     reduce rt (split "." key) vars = Normal (JStr s) ->
     manualCompile rt (JStr (pre +:+ text ws1 key ws2 +:+ post)) vars
     = (p <- manualCompile rt (JStr pre) vars ;;
        q <- manualCompile rt (JStr post) vars ;;
        Normal (p +:+ s +:+ q)))
  /\ manualCompile rt (JStr "{{ x }}") (JObj {[ "x" := JStr "{{ x }}" ]})
     = Normal "{{ x }}"
  /\ (forall template,
        ~ Occurs template -> manualCompile rt (JStr template) vars = Normal template).
Proof.
  split; [|split].
  - intros pre ws1 key ws2 post s Hwf Hkey.
    apply manualCompile_placeholder; [done|].
    by apply render_value with (JStr s).
  - reflexivity.
  - intros template Hno. rewrite manualCompile_string.
    by apply replace_no_occurrence.
Qed.

(** ** Conversation rows *)

(** C10.  A row that [POST /api/conversations] writes has [media_mode]
    ["audio_only"] or ["audio_video"], and it is ["audio_video"] exactly when
    the request's body supplied the string ["audio_video"] as its
    [media_mode]; anything else, a missing value included, is stored as
    ["audio_only"]. *)
Theorem stored_media_mode_is_normalized
    rt pg sv text (table : gmap string Db.Row) response table' id row :
  Server.postConversations rt pg sv text table = (response, table') ->
  table' !! id = Some row ->
  table !! id <> Some row ->
  (Db.col_media_mode row = "audio_only" \/ Db.col_media_mode row = "audio_video")
  /\ exists supplied,
       Server.suppliedMediaMode rt text = Normal supplied
       /\ (Db.col_media_mode row = "audio_video" <-> supplied = JStr "audio_video").
Proof.
  intros Hpost Hnew Hold.
  apply postConversations_table in Hpost
    as [->|(id0 & row0 & supplied & -> & Hsupplied & Hmode)]; [done|].
  destruct (decide (id0 = id)) as [->|Hid].
  - rewrite lookup_insert_eq in Hnew. simplify_eq. rewrite Hmode.
    split; [apply mediaMode_cases|].
    exists supplied. split; [done|]. apply mediaMode_video.
  - by rewrite lookup_insert_ne in Hnew.
Qed.

(** A request for video into an empty table: the row is stored under the
    fresh id, with [media_mode] ["audio_video"]. *)
Lemma stored_media_mode_is_normalized_witness :
  exists row,
    snd (Server.postConversations Node.runtime ServerExamples.postgres
           ServerExamples.services Node.videoRequest ∅)
      !! "7c9e6679-7425-40de-944b-e07fc1f90ae7" = Some row
    /\ Db.col_media_mode row = "audio_video".
Proof.
  destruct (Server.postConversations Node.runtime ServerExamples.postgres
              ServerExamples.services Node.videoRequest ∅)
    as [response table'] eqn:Hrun.
  simpl.
  destruct (table' !! "7c9e6679-7425-40de-944b-e07fc1f90ae7") as [row|] eqn:Hrow.
  - exists row. split; [reflexivity|].
    destruct (stored_media_mode_is_normalized _ _ _ _ _ _ _ _ _ Hrun Hrow)
      as (_ & supplied & Hsupplied & Hvideo).
    + rewrite lookup_empty. discriminate.
    + apply Hvideo. vm_compute in Hsupplied. congruence.
  - exfalso.
    pose proof (f_equal snd Hrun : snd _ = table') as Htable.
    rewrite <- Htable in Hrow. vm_compute in Hrow. discriminate.
Defined.

(** * Further properties of the code *)

(** ** White space, slashes and path segments *)

Module TrimFacts.

Import Chars Str StrFacts.

Lemma is_empty_true s : is_empty s = true <-> s = "".
Proof. destruct s; simpl; split; done. Qed.

Lemma is_empty_false s : is_empty s = false <-> s <> "".
Proof. destruct s; simpl; split; done. Qed.

Lemma all_dropWhile p s : all p (dropWhile p s) = all p s.
Proof.
  induction s as [|c s IH]; [done|]. simpl.
  destruct (p c) eqn:Hc; simpl; [done | by rewrite Hc].
Qed.

Lemma trimEnd_empty s : trimEnd s = "" <-> all is_space s = true.
Proof.
  destruct s as [|c s]; [done|]. cbn [trimEnd].
  destruct (all is_space (String c s)); split; done.
Qed.

Lemma trim_empty s : trim s = "" <-> all is_space s = true.
Proof. unfold trim, trimStart. by rewrite trimEnd_empty, all_dropWhile. Qed.

(** The test [s.trim() === ''] of the code, in terms of the characters. *)
Lemma is_empty_trim s : is_empty (trim s) = all is_space s.
Proof.
  destruct (all is_space s) eqn:Hs.
  - by apply is_empty_true, trim_empty.
  - apply is_empty_false. intros H%trim_empty. congruence.
Qed.

Lemma all_trimEnd s : all is_space (trimEnd s) = all is_space s.
Proof.
  induction s as [|c s IH]; [done|]. cbn [trimEnd].
  destruct (all is_space (String c s)) eqn:Hs; [done|].
  simpl in *. by rewrite IH.
Qed.

Lemma trimEnd_idempotent s : trimEnd (trimEnd s) = trimEnd s.
Proof.
  induction s as [|c s IH]; [done|]. cbn [trimEnd].
  destruct (all is_space (String c s)) eqn:Hs; [done|].
  cbn [trimEnd]. replace (all is_space (String c (trimEnd s))) with false.
  - by rewrite IH.
  - simpl in *. by rewrite all_trimEnd.
Qed.

Lemma dropWhile_trimEnd s :
  dropWhile is_space (trimEnd (dropWhile is_space s))
  = trimEnd (dropWhile is_space s).
Proof.
  induction s as [|c s IH]; [done|]. cbn [dropWhile].
  destruct (is_space c) eqn:Hc; [done|]. cbn [trimEnd]. simpl.
  rewrite Hc. simpl. by rewrite Hc.
Qed.

Lemma trim_idempotent s : trim (trim s) = trim s.
Proof.
  unfold trim, trimStart. by rewrite dropWhile_trimEnd, trimEnd_idempotent.
Qed.

End TrimFacts.

Module UrlFacts.

Import Chars Str StrFacts PromptFacts Server More.

Lemma dropTrailingSlash_slash base :
  base <> "" -> dropTrailingSlash (base +:+ "/") = base.
Proof.
  induction base as [|c s IH]; [done|]. intros _.
  rewrite append_cons. cbn [dropTrailingSlash].
  destruct s as [|d s].
  - rewrite append_nil_l. simpl. by rewrite andb_false_r.
  - rewrite IH by done. rewrite append_cons. simpl. by rewrite andb_false_r.
Qed.

Lemma dropTrailingSlash_none base :
  endsWithSlash base = false -> dropTrailingSlash base = base.
Proof.
  induction base as [|c s IH]; [done|]. intros H. cbn [dropTrailingSlash].
  destruct s as [|d s].
  - simpl in *. by rewrite H.
  - rewrite IH by done. simpl. by rewrite andb_false_r.
Qed.

Lemma split_separator sep dir rest :
  exists piece pieces,
    split sep (dir +:+ String sep rest) = piece :: pieces ++ split sep rest.
Proof.
  induction dir as [|c s (piece & pieces & IH)].
  - exists "", []. rewrite append_nil_l. simpl. by rewrite Ascii.eqb_refl.
  - rewrite append_cons. cbn [split]. rewrite IH.
    destruct (Ascii.eqb c sep); [by exists "", (piece :: pieces) | by eexists _, _].
Qed.

Lemma split_one sep name :
  all (fun c => negb (Ascii.eqb c sep)) name = true -> split sep name = [name].
Proof.
  induction name as [|c s IH]; [done|]. simpl.
  intros [Hc Hs]%andb_true_iff. apply negb_true_iff in Hc.
  by rewrite Hc, IH.
Qed.

(** The last piece of a split is what follows the last separator. *)
Lemma split_last sep dir name :
  all (fun c => negb (Ascii.eqb c sep)) name = true ->
  List.last (split sep (dir +:+ String sep name)) "" = name.
Proof.
  intros Hname. destruct (split_separator sep dir name) as (piece & pieces & ->).
  rewrite (split_one _ _ Hname).
  change (piece :: pieces ++ [name]) with ((piece :: pieces) ++ [name]).
  apply List.last_last.
Qed.

End UrlFacts.

(** ** Prompt resolution and substitution *)

Import Chars Str Placeholder PromptManager.
Import StrFacts PlaceholderFacts PromptFacts ResolutionFacts.
#[local] Open Scope js_scope.

(** X1.  A call of [generatePrompt] only adds to the trace, and what it adds
    holds no call of the prompt service, or the first attempt alone, or the
    first attempt followed by one attempt without label: the service is
    called at most twice, and always for the name of the request. *)
Theorem prompt_service_is_called_at_most_twice rt langfuse details tr :
  exists events,
    snd (generatePrompt rt langfuse details tr) = tr ++ events
    /\ (remoteCalls events = []
        \/ remoteCalls events
           = [PromptGet (prompt_name details) (Spec.labelOf details)]
        \/ remoteCalls events
           = [PromptGet (prompt_name details) (Spec.labelOf details);
              PromptGet (prompt_name details) None]).
Proof.
  destruct (Js.truthy (prompt_name details)) eqn:Hname.
  2:{ rewrite generatePrompt_unnamed by done. exists []. by rewrite app_nil_r; auto. }
  destruct (decide (promptText details = "")) as [Htext|Htext].
  2:{ rewrite generatePrompt_inline by done. exists []. by rewrite app_nil_r; auto. }
  destruct langfuse as [client|].
  2:{ rewrite generatePrompt_not_configured by done. eexists. split; [done|]. by left. }
  rewrite generatePrompt_configured by done.
  rewrite fetchAndCompile_outcome. cbv zeta.
  destruct (prompt_get client tr _ _) as [fetched|e1];
    [|destruct (prompt_get client (tr ++ _) _ None) as [fetched|e2]].
  3:{ eexists. cbn [snd]. rewrite <- List.app_assoc. split; [done|]. auto. }
  all: destruct fetched as [|compile prompt];
    [destruct (notFoundMessage _ _)
    |destruct (compileFetched _ _ _ _)];
    eexists; cbn [snd]; rewrite <- ?List.app_assoc; (split; [done|]);
    cbn; auto.
Qed.

(** X2.  When the request has no label and the lookup is rejected, the same
    lookup is made once more: the trace shows two calls without label.  If
    the second resolves to a prompt that compiles to [s] the call returns
    [s]; if it is rejected too the call returns the fallback template. *)
Theorem unlabelled_lookup_is_retried_once rt client details tr e :
  Js.truthy (prompt_name details) = true ->
  promptText details = "" ->
  Js.truthy (prompt_label details) = false ->
  prompt_get client tr (prompt_name details) None = Rejected e ->
  exists result tr',
    generatePrompt rt (Some client) details tr = (Normal result, tr')
    /\ remoteCalls tr'
       = remoteCalls tr
         ++ [PromptGet (prompt_name details) None;
             PromptGet (prompt_name details) None]
    /\ (forall compile prompt s,
          prompt_get client (tr ++ [PromptGet (prompt_name details) None])
            (prompt_name details) None
          = Resolved (Prompt compile prompt) ->
          compileFetched rt compile prompt
            (normalizeVariables rt (prompt_variables details)) = Normal s ->
          result = s)
    /\ (forall e',
          prompt_get client (tr ++ [PromptGet (prompt_name details) None])
            (prompt_name details) None
          = Rejected e' ->
          result = FALLBACK).
Proof.
  intros Hname Htext Hlabel Hfirst.
  rewrite generatePrompt_configured by done.
  rewrite fetchAndCompile_outcome. cbv zeta.
  unfold Spec.labelOf. rewrite Hlabel, Hfirst.
  destruct (prompt_get client (tr ++ _) _ None) as [fetched|e2] eqn:Hretry.
  - destruct fetched as [|compile prompt].
    + destruct (notFoundMessage _ _); eexists _, _; (split; [done|]);
        rewrite !remoteCalls_app; simpl; rewrite app_nil_r; done.
    + destruct (compileFetched _ _ _ _) as [s|e'] eqn:Hcompile;
        eexists _, _; (split; [done|]);
        rewrite !remoteCalls_app; simpl; rewrite ?app_nil_r; (split; [done|]);
        (split; [|done]);
        intros compile' prompt' s' [= <- <-] Hs'; congruence.
  - eexists _, _. split; [done|].
    rewrite !remoteCalls_app. simpl. rewrite app_nil_r. done.
Qed.

(** A service that fails once answers the second, identical call. *)
Lemma unlabelled_lookup_is_retried_once_witness :
  exists tr',
    generatePrompt Node.runtime (Some More.flaky) More.unlabelled []
    = (Normal "Hello Ada!", tr')
    /\ remoteCalls tr'
       = [PromptGet (JStr "greeting") None; PromptGet (JStr "greeting") None].
Proof.
  destruct (unlabelled_lookup_is_retried_once Node.runtime More.flaky
              More.unlabelled [] (ServiceError "503 Service Unavailable")
              eq_refl eq_refl eq_refl eq_refl)
    as (result & tr' & Hrun & Hcalls & Hresult & _).
  exists tr'. split; [|exact Hcalls].
  rewrite Hrun. f_equal. f_equal.
  exact (Hresult None (JStr "Hello {{ user.name }}!") "Hello Ada!" eq_refl eq_refl).
Defined.

(** X3.  A lookup that resolves is not repeated, whatever it resolves to:
    the trace shows the first attempt alone.  When it resolves to nothing
    the call returns the fallback template (also for a labelled request: the
    prompt is not looked up again without the label); when it resolves to a
    prompt that compiles to [s] the call returns [s]. *)
Theorem resolved_lookup_is_not_retried rt client details tr fetched :
  Js.truthy (prompt_name details) = true ->
  promptText details = "" ->
  prompt_get client tr (prompt_name details) (Spec.labelOf details)
  = Resolved fetched ->
  exists result tr',
    generatePrompt rt (Some client) details tr = (Normal result, tr')
    /\ remoteCalls tr'
       = remoteCalls tr
         ++ [PromptGet (prompt_name details) (Spec.labelOf details)]
    /\ (fetched = NoPrompt -> result = FALLBACK)
    /\ (forall compile prompt s,
          fetched = Prompt compile prompt ->
          compileFetched rt compile prompt
            (normalizeVariables rt (prompt_variables details)) = Normal s ->
          result = s).
Proof.
  intros Hname Htext Hfirst.
  rewrite generatePrompt_configured by done.
  rewrite fetchAndCompile_outcome. cbv zeta. rewrite Hfirst.
  destruct fetched as [|compile prompt].
  - destruct (notFoundMessage _ _); eexists _, _; (split; [done|]);
      rewrite !remoteCalls_app; simpl; rewrite app_nil_r; done.
  - destruct (compileFetched _ _ _ _) as [s|e'] eqn:Hcompile;
      eexists _, _; (split; [done|]);
      rewrite !remoteCalls_app; simpl; rewrite ?app_nil_r;
      (split; [done|]); (split; [done|]);
      intros compile' prompt' s' [= <- <-] Hs'; congruence.
Qed.

(** With a service that finds nothing under the label, the labelled request
    gets the fallback template after one call. *)
Lemma resolved_lookup_is_not_retried_witness :
  exists tr',
    generatePrompt Node.runtime (Some More.empty) Examples.labelled []
    = (Normal FALLBACK, tr')
    /\ remoteCalls tr' = [PromptGet (JStr "greeting") (Some (JStr "v2"))].
Proof.
  destruct (resolved_lookup_is_not_retried Node.runtime More.empty
              Examples.labelled [] NoPrompt eq_refl eq_refl eq_refl)
    as (result & tr' & Hrun & Hcalls & Hnone & _).
  exists tr'. split; [|exact Hcalls].
  rewrite Hrun. f_equal. f_equal. exact (Hnone eq_refl).
Defined.

(** X4.  A prompt that the service resolves without a [compile] function and
    without text (its [prompt] is falsy) resolves to the empty string, not to
    the fallback template. *)
Theorem prompt_without_text_resolves_to_nothing rt client details tr prompt :
  Js.truthy (prompt_name details) = true ->
  promptText details = "" ->
  Spec.lookupOutcome client details tr = Resolved (Prompt None prompt) ->
  Js.truthy prompt = false ->
  fst (generatePrompt rt (Some client) details tr) = Normal "".
Proof.
  intros Hname Htext Hlookup Hprompt.
  rewrite generatePrompt_configured by done.
  rewrite fetchAndCompile_outcome. cbv zeta.
  unfold Spec.lookupOutcome in Hlookup.
  assert (compileFetched rt None prompt
            (normalizeVariables rt (prompt_variables details)) = Normal "") as Hc.
  { unfold compileFetched, Js.or_else. by rewrite Hprompt. }
  destruct (prompt_get client tr _ _) as [fetched|e1].
  - injection Hlookup as ->. by rewrite Hc.
  - rewrite Hlookup. by rewrite Hc.
Qed.

Lemma prompt_without_text_resolves_to_nothing_witness :
  fst (generatePrompt Node.runtime (Some More.blank) Examples.labelled [])
  = Normal "".
Proof.
  exact (prompt_without_text_resolves_to_nothing Node.runtime More.blank
           Examples.labelled [] JUndefined eq_refl eq_refl eq_refl eq_refl).
Defined.

(** X5.  A chat prompt, an array whose elements are strings or messages with
    a string as [content], is turned into one string: the contents in order,
    joined by line feeds.  That is also what comes of a prompt that the
    SDK's [compile] returns in this form. *)
Theorem chat_prompt_is_joined_by_line_feeds rt messages contents :
  Forall2 (fun m content =>
             m = JStr content
             \/ exists props : gmap string JsVal,
                  m = JObj props /\ props !! "content" = Some (JStr content))
          messages contents ->
  toStringPrompt rt (JArr messages) = Normal (String.concat LF contents)
  /\ (forall compile prompt variables,
        compile variables = Normal (JArr messages) ->
        compileFetched rt (Some compile) prompt variables
        = Normal (String.concat LF contents)).
Proof.
  intros Hall.
  assert (toStringPrompt rt (JArr messages) = Normal (String.concat LF contents)) as H.
  { cbn [toStringPrompt].
    match goal with |- cmap _ (?each messages) = _ =>
      assert (each messages = Normal contents) as ->; [|done] end.
    induction Hall as [|m content messages contents Hm _ IH]; [done|].
    rewrite IH. destruct Hm as [-> | (props & -> & Hcontent)].
    - destruct content; done.
    - cbn. by rewrite Hcontent. }
  split; [done|].
  intros compile prompt variables Hcompile. unfold compileFetched.
  by rewrite Hcompile.
Qed.

Lemma chat_prompt_is_joined_by_line_feeds_witness :
  toStringPrompt Node.runtime
    (JArr [More.message "system" "Be brief."; JStr "Greet the caller."])
  = Normal ("Be brief." +:+ LF +:+ "Greet the caller.").
Proof.
  refine (proj1 (chat_prompt_is_joined_by_line_feeds Node.runtime _
                   ["Be brief."; "Greet the caller."] _)).
  constructor; [right; eexists; split; reflexivity|].
  constructor; [left; reflexivity|]. constructor.
Defined.

(** X6.  Whatever the caller passes as variables, [generatePrompt] works
    with an object (or array): the normalised value is truthy and of type
    [object].  A value that is one already is kept as it is, and normalising
    twice changes nothing. *)
Theorem normalized_variables_are_an_object rt given :
  Spec.notObject (normalizeVariables rt given) = false
  /\ normalizeVariables rt (normalizeVariables rt given)
     = normalizeVariables rt given
  /\ (Spec.notObject given = false -> normalizeVariables rt given = given).
Proof.
  assert (forall v, Spec.notObject v = false -> normalizeVariables rt v = v) as Hkeep.
  { intros v. unfold Spec.notObject.
    destruct v; cbn; rewrite ?orb_true_r; done. }
  assert (Spec.notObject (normalizeVariables rt given) = false) as Hobj.
  { unfold normalizeVariables.
    destruct given as [| |b|n|s|l|m|f]; cbn; rewrite ?orb_true_r; try done.
    destruct (JSON_parse rt s) as [[| |b|n|s'|l|m|f]|]; cbn;
      rewrite ?orb_true_r; done. }
  split; [done|]. split; [by apply Hkeep | apply Hkeep].
Qed.

(** X7.  Variables passed as JSON text are as good as the object the text
    stands for: when the text parses to an object, the call does what it does
    with that object. *)
Theorem stringified_variables_are_parsed rt langfuse details text variables tr :
  JSON_parse rt text = Normal variables ->
  Spec.notObject variables = false ->
  generatePrompt rt langfuse (Spec.withVariables details (JStr text)) tr
  = generatePrompt rt langfuse (Spec.withVariables details variables) tr.
Proof.
  intros Hparse Hobj.
  assert (normalizeVariables rt (JStr text) = normalizeVariables rt variables) as Hn.
  { transitivity variables.
    - unfold normalizeVariables. cbn. rewrite Hparse.
      unfold Spec.notObject in Hobj. by rewrite Hobj.
    - revert Hobj. unfold Spec.notObject.
      destruct variables; cbn; rewrite ?orb_true_r; done. }
  unfold generatePrompt, promptText, promptTextRaw. cbn. by rewrite Hn.
Qed.

(** The variables of a request, sent as text. *)
Lemma stringified_variables_are_parsed_witness :
  generatePrompt Node.runtime None More.stringified [] = (Normal "You are a.", []).
Proof.
  refine (eq_trans (stringified_variables_are_parsed Node.runtime None
                      More.stringified Node.videoRequest _ [] eq_refl eq_refl) _).
  reflexivity.
Defined.

(** X8.  What the pattern [/{{\s*([\w.]+)\s*}}/] matches at the start of a
    text: exactly a well-formed placeholder, two opening braces, white
    space, a non-empty key of word characters and dots, white space, two
    closing braces; the key is what it captures and the match is as long as
    the placeholder. *)
Theorem pattern_matches_well_formed_placeholders s key n :
  match_at s = Some (key, n)
  <-> exists ws1 ws2 post,
        s = text ws1 key ws2 +:+ post /\ WellFormed ws1 key ws2
        /\ n = String.length (text ws1 key ws2).
Proof.
  split.
  - apply match_at_sound.
  - intros (ws1 & ws2 & post & -> & Hwf & ->). by apply match_at_text.
Qed.

(** X9.  The white space inside the braces makes no difference to what a
    placeholder is replaced by. *)
Theorem white_space_in_braces_is_ignored
    rt pre ws1 ws2 ws1' ws2' key post vars :
  WellFormed ws1 key ws2 ->
  WellFormed ws1' key ws2' ->
  manualCompile rt (JStr (pre +:+ text ws1 key ws2 +:+ post)) vars
  = manualCompile rt (JStr (pre +:+ text ws1' key ws2' +:+ post)) vars.
Proof.
  intros Hwf Hwf'. rewrite !manualCompile_string.
  by rewrite !replace_placeholder.
Qed.

Lemma white_space_in_braces_is_ignored_witness :
  manualCompile Node.runtime (JStr "Hello {{user.name}}!") (JObj ∅)
  = manualCompile Node.runtime (JStr "Hello {{  user.name }}!") (JObj ∅).
Proof.
  refine (white_space_in_braces_is_ignored Node.runtime "Hello " "" "" "  " " "
            "user.name" "!" (JObj ∅) _ _);
    (split; [reflexivity | reflexivity | discriminate | reflexivity]).
Defined.

(** ** The table and the handler *)

Module HandlerFacts.

Import Db Server.
#[local] Open Scope js_scope.

Lemma objectOrEmpty_object v : Spec.notObject (objectOrEmpty v) = false.
Proof.
  unfold objectOrEmpty, Spec.notObject.
  destruct (Js.truthy v && (Js.typeof v =? "object")%string) eqn:H; [|done].
  apply andb_true_iff in H as [-> ->]. done.
Qed.

Lemma coalesce_object v w : Spec.notObject v = false -> Js.coalesce v w = v.
Proof. by destruct v. Qed.

Lemma coalesce_null v : Js.coalesce v JNull <> JUndefined.
Proof. by destruct v. Qed.

(** The two ways the handler ends: with status 400 and the table as it was,
    or with status 200 and one row stored under the uuid of the id. *)
Lemma postConversations_outcome rt pg sv text table response table' :
  postConversations rt pg sv text table = (response, table') ->
  (table' = table /\ (response = invalidBody \/ response = missingFields))
  \/ exists body f id uuid created_at,
       readJsonBody rt text = Normal body
       /\ readFields rt body = Normal f
       /\ conversationId rt sv body = Normal id
       /\ pg_uuid pg id = Some uuid
       /\ Js.truthy (f_agent_name f) = true
       /\ Js.truthy (f_webhook_link f) = true
       /\ Js.truthy (f_conversation_type f) = true
       /\ response = {| status := 200;
                        body := Created id (buildConversationUrl sv id) |}
       /\ table' = <[uuid :=
            rowOf uuid created_at
                  {| id := id;
                     conversation_type := f_conversation_type f;
                     prompt_name := f_prompt_name f;
                     prompt_label := f_prompt_label f;
                     agent_name := f_agent_name f;
                     webhook_link := f_webhook_link f;
                     company_name := f_company_name f;
                     prompt_text := f_prompt_text f;
                     agent_description := f_agent_description f;
                     media_mode := JStr (mediaMode (f_media_mode f));
                     prompt_variables := objectOrEmpty (f_prompt_variables f);
                     ui_variables := objectOrEmpty (f_ui_variables f);
                     complete_screen := objectOrEmpty (f_complete_screen f) |}]> table.
Proof.
  unfold postConversations. intros Hpost.
  destruct (readJsonBody rt text) as [body|] eqn:Hbody; simpl in Hpost;
    [|left; by simplify_eq; auto].
  destruct (readFields rt body) as [f|] eqn:Hread; simpl in Hpost;
    [|left; by simplify_eq; auto].
  destruct (Js.truthy (f_agent_name f)) eqn:Hagent; simpl in Hpost;
    [|left; by simplify_eq; auto].
  destruct (Js.truthy (f_webhook_link f)) eqn:Hhook; simpl in Hpost;
    [|left; by simplify_eq; auto].
  destruct (Js.truthy (f_conversation_type f)) eqn:Htype; simpl in Hpost;
    [|left; by simplify_eq; auto].
  unfold store, insertConversation in Hpost. cbn [Db.id] in Hpost.
  destruct (pg_init pg); [|left; by simplify_eq; auto].
  destruct (conversationId rt sv body) as [id|] eqn:Hid; [|left; by simplify_eq; auto].
  destruct (pg_uuid pg id) as [uuid|] eqn:Huuid; [|left; by simplify_eq; auto].
  cbv zeta in Hpost.
  destruct (pg_refuses pg _); [left; by simplify_eq; auto|].
  right. exists body, f, id, uuid. eexists. by simplify_eq.
Qed.

(** Whatever the rest of the handler throws, the answer is the one for a
    body that is no JSON. *)
Lemma postConversations_caught rt pg sv text table body f e :
  readJsonBody rt text = Normal body ->
  readFields rt body = Normal f ->
  Js.truthy (f_agent_name f) = true ->
  Js.truthy (f_webhook_link f) = true ->
  Js.truthy (f_conversation_type f) = true ->
  fst (store rt pg sv body f table) = Throw e ->
  fst (postConversations rt pg sv text table) = invalidBody.
Proof.
  intros Hbody Hread Hagent Hhook Htype Hstore. unfold postConversations.
  rewrite Hbody. simpl. rewrite Hread. simpl. rewrite Hagent, Hhook, Htype. simpl.
  destruct (store rt pg sv body f table) as [[response|e'] table']; [done|done].
Qed.

End HandlerFacts.

Import Chars Str StrFacts TrimFacts UrlFacts HandlerFacts.
#[local] Open Scope js_scope.

(** X11.  [on conflict (id) do update]: two writes whose ids are spellings
    of one uuid leave one row under that uuid.  The second call returns the
    uuid as the database prints it; the row holds the twelve columns of the
    second write and the time of creation that the first write left (the time
    of the first write, or that of the row that was there before it); the
    rows under other uuids are as they were; the second write adds no row and
    the first at most one. *)
Theorem conflicting_insert_replaces_the_row pg1 pg2 first second table uuid :
  Db.pg_uuid pg1 (Db.id first) = Some uuid ->
  Db.pg_uuid pg2 (Db.id second) = Some uuid ->
  let created_at :=
    match table !! uuid with
    | Some old => Db.col_created_at old
    | None => Db.pg_now pg1
    end in
  Db.pg_refuses pg1 (Db.rowOf uuid created_at first) = None ->
  Db.pg_refuses pg2 (Db.rowOf uuid created_at second) = None ->
  let table1 := snd (Db.insertConversation pg1 first table) in
  let run := Db.insertConversation pg2 second table1 in
  fst run = Normal uuid
  /\ snd run !! uuid = Some (Db.rowOf uuid created_at second)
  /\ (forall other, other <> uuid -> snd run !! other = table !! other)
  /\ size (snd run) = size table1
  /\ size table1 <= S (size table).
Proof.
  intros Hfirst Hsecond created_at Htakes1 Htakes2. cbv zeta.
  unfold Db.insertConversation. rewrite Hfirst. cbv zeta.
  fold created_at. rewrite Htakes1. cbn [snd]. rewrite Hsecond.
  rewrite lookup_insert_eq. cbn [Db.rowOf Db.col_created_at]. rewrite Htakes2.
  cbn [fst snd Db.col_id]. split; [done|]. split; [by rewrite lookup_insert_eq|].
  split; [|split].
  - intros other Hother. by rewrite !lookup_insert_ne.
  - rewrite map_size_insert_Some; [done|]. rewrite lookup_insert_eq. by eexists.
  - rewrite map_size_insert. destruct (table !! uuid); simpl; lia.
Qed.

(** A conversation written for audio and an hour later, with its id in upper
    case, for video: one row, with video and the first time of creation. *)
Lemma conflicting_insert_replaces_the_row_witness :
  snd (Db.insertConversation More.later
         (More.conversation "7C9E6679-7425-40DE-944B-E07FC1F90AE7" (JStr "audio_video"))
         (snd (Db.insertConversation ServerExamples.postgres
                 (More.conversation "7c9e6679-7425-40de-944b-e07fc1f90ae7"
                    (JStr "audio_only")) ∅)))
    !! "7c9e6679-7425-40de-944b-e07fc1f90ae7"
  = Some (Db.rowOf "7c9e6679-7425-40de-944b-e07fc1f90ae7" 1700000000
            (More.conversation "7C9E6679-7425-40DE-944B-E07FC1F90AE7"
               (JStr "audio_video"))).
Proof.
  exact (proj1 (proj2 (conflicting_insert_replaces_the_row
                         ServerExamples.postgres More.later
                         (More.conversation "7c9e6679-7425-40de-944b-e07fc1f90ae7"
                            (JStr "audio_only"))
                         (More.conversation "7C9E6679-7425-40DE-944B-E07FC1F90AE7"
                            (JStr "audio_video"))
                         ∅ "7c9e6679-7425-40de-944b-e07fc1f90ae7"
                         eq_refl eq_refl eq_refl eq_refl))).
Defined.

(** X12.  [POST /api/conversations] answers 200 or 400.  With 200 the body
    carries the id of the conversation, which is the id taken from the
    request or made up for it, spelled as the request spelled it, and the URL
    built from that id; the database reads the id as a uuid, and a row with
    that uuid is stored under it.  With 400 the body carries one of the two
    errors of the handler. *)
Theorem conversation_is_created_or_refused
    rt pg sv text (table : gmap string Db.Row) response table' :
  Server.postConversations rt pg sv text table = (response, table') ->
  (Server.status response = 200
   /\ exists id uuid row,
        Server.body response = Server.Created id (Server.buildConversationUrl sv id)
        /\ (body <- Server.readJsonBody rt text ;; Server.conversationId rt sv body)
           = Normal id
        /\ Db.pg_uuid pg id = Some uuid
        /\ table' !! uuid = Some row
        /\ Db.col_id row = uuid)
  \/ (Server.status response = 400
      /\ (Server.body response = Server.Failure "Invalid JSON body"
          \/ Server.body response
             = Server.Failure
                 "Missing required snake_case fields: agent_name, webhook_link, conversation_type")).
Proof.
  intros [[_ Hresponse]
         |(body & f & id & uuid & created_at
           & Hbody & _ & Hid & Huuid & _ & _ & _ & -> & ->)]
    %postConversations_outcome.
  - right. destruct Hresponse as [-> | ->]; by auto.
  - left. split; [done|]. eexists id, uuid, _. split; [done|]. rewrite Hbody. simpl.
    split; [done|]. split; [done|]. by rewrite lookup_insert_eq.
Qed.

(** The request for video is answered 200, and its row is stored under the
    id made up for it. *)
Lemma conversation_is_created_or_refused_witness :
  exists row,
    snd (Server.postConversations Node.runtime ServerExamples.postgres
           ServerExamples.services Node.videoRequest ∅)
      !! "7c9e6679-7425-40de-944b-e07fc1f90ae7" = Some row
    /\ Db.col_id row = "7c9e6679-7425-40de-944b-e07fc1f90ae7".
Proof.
  destruct (Server.postConversations Node.runtime ServerExamples.postgres
              ServerExamples.services Node.videoRequest ∅)
    as [response table'] eqn:Hrun.
  pose proof (f_equal fst Hrun : fst _ = response) as Hresponse.
  destruct (conversation_is_created_or_refused _ _ _ _ _ _ _ Hrun)
    as [(_ & id & uuid & row & Hcreated & _ & Huuid & Hrow & Hid)|[Hrefused _]].
  - rewrite <- Hresponse in Hcreated. vm_compute in Hcreated.
    injection Hcreated as <- _. vm_compute in Huuid. injection Huuid as <-.
    exists row. split; [exact Hrow | exact Hid].
  - exfalso. rewrite <- Hresponse in Hrefused. vm_compute in Hrefused.
    discriminate.
Defined.

(** X13.  Every row that the handler writes is complete: the three required
    columns hold truthy values, the three [jsonb] columns hold objects, no
    optional column holds [undefined] (a field that was left out is stored as
    [null]), and the row's id is the key it is stored under. *)
Theorem stored_row_is_complete
    rt pg sv text (table : gmap string Db.Row) response table' id row :
  Server.postConversations rt pg sv text table = (response, table') ->
  table' !! id = Some row ->
  table !! id <> Some row ->
  Db.col_id row = id
  /\ Js.truthy (Db.col_agent_name row) = true
  /\ Js.truthy (Db.col_webhook_link row) = true
  /\ Js.truthy (Db.col_conversation_type row) = true
  /\ Spec.notObject (Db.col_prompt_variables row) = false
  /\ Spec.notObject (Db.col_ui_variables row) = false
  /\ Spec.notObject (Db.col_complete_screen row) = false
  /\ Db.col_prompt_name row <> JUndefined
  /\ Db.col_prompt_label row <> JUndefined
  /\ Db.col_company_name row <> JUndefined
  /\ Db.col_prompt_text row <> JUndefined
  /\ Db.col_agent_description row <> JUndefined.
Proof.
  intros [[-> _]|(body & f & id0 & uuid & created_at
                  & _ & _ & _ & _ & Hagent & Hhook & Htype & _ & ->)]
    %postConversations_outcome Hnew Hold; [done|].
  destruct (decide (uuid = id)) as [->|Hid].
  2:{ by rewrite lookup_insert_ne in Hnew. }
  rewrite lookup_insert_eq in Hnew. injection Hnew as <-.
  cbn [Db.rowOf Db.col_id Db.col_agent_name Db.col_webhook_link
       Db.col_conversation_type Db.col_prompt_variables Db.col_ui_variables
       Db.col_complete_screen Db.col_prompt_name Db.col_prompt_label
       Db.col_company_name Db.col_prompt_text Db.col_agent_description
       Db.id Db.agent_name Db.webhook_link Db.conversation_type
       Db.prompt_variables Db.ui_variables Db.complete_screen Db.prompt_name
       Db.prompt_label Db.company_name Db.prompt_text Db.agent_description].
  rewrite !coalesce_object by apply objectOrEmpty_object.
  repeat split; try done; try apply objectOrEmpty_object; apply coalesce_null.
Qed.

Lemma stored_row_is_complete_witness :
  exists row,
    snd (Server.postConversations Node.runtime ServerExamples.postgres
           ServerExamples.services Node.videoRequest ∅)
      !! "7c9e6679-7425-40de-944b-e07fc1f90ae7" = Some row
    /\ Db.col_prompt_name row <> JUndefined.
Proof.
  destruct (Server.postConversations Node.runtime ServerExamples.postgres
              ServerExamples.services Node.videoRequest ∅)
    as [response table'] eqn:Hrun.
  simpl.
  destruct (table' !! "7c9e6679-7425-40de-944b-e07fc1f90ae7") as [row|] eqn:Hrow.
  - exists row. split; [reflexivity|].
    refine (proj1 (proj2 (proj2 (proj2 (proj2 (proj2 (proj2 (proj2
              (stored_row_is_complete _ _ _ _ _ _ _ _ _ Hrun Hrow _))))))))).
    rewrite lookup_empty. discriminate.
  - exfalso.
    pose proof (f_equal snd Hrun : snd _ = table') as Htable.
    rewrite <- Htable in Hrow. vm_compute in Hrow. discriminate.
Defined.

(** X14.  Whatever is thrown after the check of the required fields is
    answered like a body that is no JSON: when the body parses and has the
    required fields, and [initDb] throws, or the id is no uuid for the
    database, or anything else in the rest of the handler throws (the
    database refusing the row, say), the answer is 400 with the error
    [Invalid JSON body]. *)
Theorem database_failure_is_reported_as_invalid_json
    rt pg sv text (table : gmap string Db.Row) body f :
  Server.readJsonBody rt text = Normal body ->
  Server.readFields rt body = Normal f ->
  Js.truthy (Server.f_agent_name f) = true ->
  Js.truthy (Server.f_webhook_link f) = true ->
  Js.truthy (Server.f_conversation_type f) = true ->
  let invalid :=
    {| Server.status := 400; Server.body := Server.Failure "Invalid JSON body" |} in
  (forall e,
     Db.pg_init pg = Throw e ->
     fst (Server.postConversations rt pg sv text table) = invalid)
  /\ (forall id,
        Server.conversationId rt sv body = Normal id ->
        Db.pg_uuid pg id = None ->
        fst (Server.postConversations rt pg sv text table) = invalid)
  /\ (forall e,
        fst (Server.store rt pg sv body f table) = Throw e ->
        fst (Server.postConversations rt pg sv text table) = invalid).
Proof.
  intros Hbody Hread Hagent Hhook Htype invalid.
  assert (forall e,
            fst (Server.store rt pg sv body f table) = Throw e ->
            fst (Server.postConversations rt pg sv text table) = invalid) as Hcaught.
  { intros e. by apply postConversations_caught. }
  split; [|split; [|done]].
  - intros e Hinit. apply (Hcaught e). unfold Server.store. by rewrite Hinit.
  - intros id Hid Huuid.
    destruct (Db.pg_init pg) as [[]|e] eqn:Hinit.
    + apply (Hcaught Db.invalidUuid). unfold Server.store, Db.insertConversation.
      rewrite Hinit, Hid. cbn [Db.id]. by rewrite Huuid.
    + apply (Hcaught e). unfold Server.store. by rewrite Hinit.
Qed.

(** With a database that cannot be reached, the request for video is
    answered 400. *)
Lemma database_failure_is_reported_as_invalid_json_witness :
  fst (Server.postConversations Node.runtime More.down ServerExamples.services
         Node.videoRequest ∅)
  = {| Server.status := 400; Server.body := Server.Failure "Invalid JSON body" |}.
Proof.
  refine (proj1 (database_failure_is_reported_as_invalid_json Node.runtime More.down
                   ServerExamples.services Node.videoRequest ∅ _ _
                   eq_refl eq_refl _ _ _) _ eq_refl);
    reflexivity.
Defined.

(** X15.  The id of a new conversation: an id that the request gives as a
    string with a character other than white space is used exactly as given,
    not trimmed; a string of white space only, or any falsy value, is
    replaced by a fresh UUID; a truthy value that is no string makes the
    handler throw, for it has no [trim]. *)
Theorem supplied_id_is_kept_unless_blank rt sv body given :
  Js.get rt body "id" = Normal given ->
  Server.conversationId rt sv body
  = match given with
    | JStr s =>
        Normal (if all is_space s then Server.randomUUID sv else s)
    | _ =>
        if Js.truthy given
        then Throw (TypeError "body.id.trim is not a function")
        else Normal (Server.randomUUID sv)
    end.
Proof.
  intros Hget. unfold Server.conversationId. rewrite Hget. simpl.
  destruct given as [| |b|n|s|l|m|f]; simpl; try done.
  rewrite is_empty_trim. by destruct s.
Qed.

Lemma supplied_id_is_kept_unless_blank_witness :
  Server.conversationId Node.runtime ServerExamples.services
    (JObj {[ "id" := JStr " 42 " ]})
  = Normal " 42 ".
Proof.
  exact (supplied_id_is_kept_unless_blank Node.runtime ServerExamples.services
           (JObj {[ "id" := JStr " 42 " ]}) (JStr " 42 ") eq_refl).
Defined.

(** X16.  The URL of a conversation does not depend on whether
    [FRONTEND_BASE_URL] ends in a slash: a base with one trailing slash gives
    the URL that the base without it gives, the base followed by
    [/api/conversation/] and the encoded id. *)
Theorem trailing_slash_of_base_is_dropped sv base id :
  base <> "" ->
  More.endsWithSlash base = false ->
  Server.buildConversationUrl (More.withBase sv (Some (base +:+ "/"))) id
  = Server.buildConversationUrl (More.withBase sv (Some base)) id
  /\ Server.buildConversationUrl (More.withBase sv (Some base)) id
     = base +:+ "/api/conversation/" +:+ Server.encodeURIComponent sv id.
Proof.
  intros Hbase Hslash. unfold Server.buildConversationUrl. cbn.
  assert (Str.is_empty (base +:+ "/") = false) as ->.
  { destruct base; [done|]. by rewrite append_cons. }
  assert (Str.is_empty base = false) as -> by by destruct base.
  cbn. by rewrite dropTrailingSlash_slash, dropTrailingSlash_none.
Qed.

Lemma trailing_slash_of_base_is_dropped_witness :
  Server.buildConversationUrl
    (More.withBase ServerExamples.services (Some "https://app.example.org/")) "c1"
  = "https://app.example.org/api/conversation/c1".
Proof.
  refine (eq_trans (proj1 (trailing_slash_of_base_is_dropped
                             ServerExamples.services "https://app.example.org" "c1"
                             _ eq_refl)) _);
    [discriminate | reflexivity].
Defined.

(** ** Start of the process, the pool and the schema *)

Module SchemaFacts.

Import Schema.

Lemma meta_data_not_created : "meta_data" ∉ (list_to_set created : gset string).
Proof.
  rewrite elem_of_list_to_set, list_elem_of_In. simpl. intuition discriminate.
Qed.

Lemma meta_data_not_added : "meta_data" ∉ (list_to_set added : gset string).
Proof.
  rewrite elem_of_list_to_set, list_elem_of_In. simpl. intuition discriminate.
Qed.

Lemma added_created : list_to_set added ⊆ (list_to_set created : gset string).
Proof.
  intros c. rewrite !elem_of_list_to_set, !list_elem_of_In. simpl. intuition.
Qed.

Lemma created_brought_added :
  list_to_set created ⊆ (list_to_set brought ∪ list_to_set added : gset string).
Proof.
  intros c. rewrite elem_of_union, !elem_of_list_to_set, !list_elem_of_In.
  simpl. intuition.
Qed.

(** A table that has the added columns and no [meta_data] is left alone. *)
Lemma up_to_date (columns : gset string) :
  list_to_set added ⊆ columns ->
  "meta_data" ∉ columns ->
  (columns ∪ list_to_set added) ∖ {[ "meta_data" ]} = columns.
Proof.
  intros Hadded Hmeta.
  rewrite (union_comm_L columns), (subseteq_union_1_L _ _ Hadded).
  by apply difference_disjoint_L, disjoint_singleton_r.
Qed.

Section Willing.

Context (refuses : Statement -> option Exn).
Hypothesis willing : forall st, refuses st = None.

Lemma query_run st db : query refuses st db = run st db.
Proof. unfold query. by rewrite willing. Qed.

Lemma queries_add columns_added (columns : gset string) :
  queries refuses (map AddColumn columns_added) (Some columns)
  = (Normal tt, Some (columns ∪ list_to_set columns_added)).
Proof.
  revert columns. induction columns_added as [|c l IH]; intros columns.
  - cbn. by rewrite (right_id_L ∅ (∪)).
  - cbn [map queries]. rewrite query_run. cbn [run]. rewrite IH.
    cbn [list_to_set foldr]. by rewrite (assoc_L (∪)).
Qed.

(** The table after the [create table] and the [add column] statements. *)
Lemma queries_added db :
  queries refuses (CreateTable :: map AddColumn added) db
  = (Normal tt,
     Some (match db with
           | Some columns => columns ∪ list_to_set added
           | None => list_to_set created
           end)).
Proof.
  cbn [queries]. rewrite query_run.
  destruct db as [columns|]; cbn [run]; rewrite queries_add.
  - done.
  - by rewrite (union_comm_L (list_to_set created)), (subseteq_union_1_L _ _ added_created).
Qed.

Lemma initDb_columns db :
  initDb refuses db
  = (Normal tt,
     Some (match db with
           | Some columns => (columns ∪ list_to_set added) ∖ {[ "meta_data" ]}
           | None => list_to_set created
           end)).
Proof.
  unfold initDb. rewrite queries_added, query_run. cbn [run].
  case_decide as Hmeta; cbn [Nat.ltb Nat.leb].
  - cbn [queries]. rewrite !query_run. cbn [run].
    rewrite decide_True; [cbn [queries]; rewrite !query_run; cbn [run]|].
    + destruct db; [done|]. by apply meta_data_not_created in Hmeta.
    + destruct db as [columns|]; [|by apply meta_data_not_created in Hmeta].
      split; [done|].
      split; apply elem_of_union_r, elem_of_list_to_set, list_elem_of_In; simpl; auto.
  - destruct db as [columns|]; [|done].
    by rewrite (difference_disjoint_L _ _ (proj2 (disjoint_singleton_r _ _) Hmeta)).
Qed.

End Willing.

End SchemaFacts.

Import Chars Str StrFacts TrimFacts UrlFacts.
#[local] Open Scope js_scope.

(** X17.  [requireEnv] lets the process run exactly when every key it is
    given is set to a value with a character other than white space;
    otherwise the process exits with code 1. *)
Theorem process_runs_iff_variables_are_set env keys :
  (Startup.requireEnv env keys = Startup.Running
   <-> forall k, In k keys ->
         exists v, env !! k = Some v /\ all is_space v = false)
  /\ (Startup.requireEnv env keys = Startup.Running
      \/ exists printed, Startup.requireEnv env keys = Startup.Exited 1 printed).
Proof.
  assert (forall k, Startup.present env k = true
                    <-> exists v, env !! k = Some v /\ all is_space v = false) as Hp.
  { intros k. unfold Startup.present. destruct (env !! k) as [v|].
    - rewrite is_empty_trim. split.
      + intros [_ H]%andb_true_iff. apply negb_true_iff in H. by exists v.
      + intros (v' & [= <-] & H). rewrite H. by destruct v.
    - split; [done | by intros (v & ? & _)]. }
  unfold Startup.requireEnv, Startup.missing. split.
  - split.
    + intros H k Hk. apply Hp.
      destruct (Startup.present env k) eqn:Hk'; [done|].
      assert (In k (List.filter (fun k => negb (Startup.present env k)) keys)) as Hin.
      { apply List.filter_In. by rewrite Hk'. }
      destruct (List.filter _ keys); done.
    + intros H.
      destruct (List.filter _ keys) as [|k ks] eqn:Hfilter; [done|].
      assert (In k (List.filter (fun k => negb (Startup.present env k)) keys)) as Hin.
      { rewrite Hfilter. by left. }
      apply List.filter_In in Hin as [Hin Hk]. apply H, Hp in Hin.
      by rewrite Hin in Hk.
  - destruct (List.filter _ keys); eauto.
Qed.

(** X18.  The pool of [getPool] is made once: a call that returns leaves the
    pool it returned behind, and every later call returns that pool whatever
    [DATABASE_URL] has become.  While there is no pool, the call throws
    exactly when [DATABASE_URL] is unset or holds white space only, and then
    it leaves no pool behind. *)
Theorem pool_is_created_once url singleton :
  (forall pool singleton',
     Pg.getPool url singleton = (Normal pool, singleton') ->
     singleton' = Some pool
     /\ forall url', Pg.getPool url' singleton' = (Normal pool, singleton'))
  /\ (singleton = None ->
      (exists e, Pg.getPool url singleton = (Throw e, None))
      <-> forall u, url = Some u -> all is_space u = true).
Proof.
  unfold Pg.getPool. split.
  - intros pool singleton' Hget.
    destruct singleton as [pool0|]; [by simplify_eq|].
    destruct url as [u|]; [|done].
    destruct (is_empty u || is_empty (trim u)); by simplify_eq.
  - intros ->. destruct url as [u|].
    + rewrite is_empty_trim. destruct (all is_space u) eqn:Hu.
      * rewrite orb_true_r. split; [by intros _ ? [= <-] | by eexists].
      * assert (is_empty u = false) as -> by by destruct u.
        split; [by intros [e ?]|]. intros H. specialize (H u eq_refl). congruence.
    + split; [done | by eexists].
Qed.

(** X19.  [initDb] on a database that refuses no statement brings the table
    up to date and completes.  Where there was no table, the table has the
    columns of the [create table] statement; where there was one, it has its
    old columns and the seven added ones, without [meta_data].  So
    [meta_data] is gone; a table that brought the seven columns that are
    never added has every column of the current schema; and running [initDb]
    again changes nothing. *)
Theorem schema_is_brought_up_to_date refuses db :
  (forall st, refuses st = None) ->
  exists columns : gset string,
    Schema.initDb refuses db = (Normal tt, Some columns)
    /\ columns = match db with
                 | Some old => (old ∪ list_to_set Schema.added) ∖ {[ "meta_data" ]}
                 | None => list_to_set Schema.created
                 end
    /\ ("meta_data" ∉ columns)
    /\ ((forall old, db = Some old -> list_to_set Schema.brought ⊆ old) ->
        list_to_set Schema.created ⊆ columns)
    /\ Schema.initDb refuses (Some columns) = (Normal tt, Some columns).
Proof.
  intros Hwilling. eexists. split; [by apply SchemaFacts.initDb_columns|].
  split; [done|].
  assert ("meta_data" ∉ match db with
                        | Some old =>
                            (old ∪ list_to_set Schema.added) ∖ {[ "meta_data" ]}
                        | None => (list_to_set Schema.created : gset string)
                        end) as Hmeta.
  { destruct db as [old|]; [|apply SchemaFacts.meta_data_not_created].
    intros [_ H]%elem_of_difference. by apply H, elem_of_singleton. }
  assert (list_to_set Schema.added
          ⊆ match db with
            | Some old => (old ∪ list_to_set Schema.added) ∖ {[ "meta_data" ]}
            | None => (list_to_set Schema.created : gset string)
            end) as Hadded.
  { destruct db as [old|]; [|apply SchemaFacts.added_created].
    intros c Hc. apply elem_of_difference. split; [by apply elem_of_union_r|].
    intros ->%elem_of_singleton. by apply SchemaFacts.meta_data_not_added in Hc. }
  split; [done|]. split.
  - intros Hold. destruct db as [old|]; [|done].
    specialize (Hold old eq_refl). intros c Hc.
    apply elem_of_difference. split.
    + apply SchemaFacts.created_brought_added, elem_of_union in Hc as [Hc|Hc];
        [apply elem_of_union_l, Hold, Hc | apply elem_of_union_r, Hc].
    + intros ->%elem_of_singleton. by apply SchemaFacts.meta_data_not_created in Hc.
  - rewrite SchemaFacts.initDb_columns by done.
    by rewrite (SchemaFacts.up_to_date _ Hadded Hmeta).
Qed.

(** A table from before [meta_data] was split. *)
Lemma schema_is_brought_up_to_date_witness :
  exists columns : gset string,
    Schema.initDb More.willing (Some More.legacy) = (Normal tt, Some columns)
    /\ list_to_set Schema.created ⊆ columns
    /\ ("meta_data" ∉ columns).
Proof.
  destruct (schema_is_brought_up_to_date More.willing (Some More.legacy)
              (fun _ => eq_refl))
    as (columns & Hrun & _ & Hmeta & Hall & _).
  exists columns. split; [exact Hrun|]. split; [|exact Hmeta].
  apply Hall. intros old [= <-]. unfold More.legacy.
  rewrite list_to_set_app. apply union_subseteq_l.
Defined.

(** ** The migration, the routes and the agent *)

Module MigrationFacts.

Import Schema.

(** Whatever the server refuses, the [add column] statements leave a table
    with at least the columns it had. *)
Lemma queries_add_keeps refuses columns_added (columns : gset string) result db' :
  queries refuses (map AddColumn columns_added) (Some columns) = (result, db') ->
  exists columns', db' = Some columns' /\ columns ⊆ columns'.
Proof.
  revert columns. induction columns_added as [|c l IH]; intros columns.
  - intros [= <- <-]. by exists columns.
  - cbn [map queries]. unfold query. destruct (refuses (AddColumn c)).
    + intros [= <- <-]. by exists columns.
    + cbn [run]. intros (columns' & -> & Hsub)%IH.
      exists columns'. split; [done|]. etrans; [apply union_subseteq_l|done].
Qed.

End MigrationFacts.

Module AgentFacts.

Import PromptManager ResolutionFacts.

(** [generatePrompt] looks at its argument through the name, the label, the
    inline text and the normalised variables only. *)
Lemma generatePrompt_ext rt langfuse d1 d2 tr :
  prompt_name d1 = prompt_name d2 ->
  prompt_label d1 = prompt_label d2 ->
  prompt_text d1 = prompt_text d2 ->
  normalizeVariables rt (prompt_variables d1)
  = normalizeVariables rt (prompt_variables d2) ->
  generatePrompt rt langfuse d1 tr = generatePrompt rt langfuse d2 tr.
Proof.
  intros Hname Hlabel Htext Hvars.
  unfold generatePrompt, promptText, promptTextRaw.
  by rewrite Hname, Hlabel, Htext, Hvars.
Qed.

(** The prompt of the session is the prompt that [generatePrompt] returns;
    the line printed after it is no call of the service. *)
Lemma sessionPrompt_generatePrompt rt langfuse attributes tr :
  let run := generatePrompt rt langfuse {|
               prompt_name := Agent.a_prompt_name attributes;
               prompt_label := Agent.a_prompt_label attributes;
               prompt_text := Agent.a_prompt_text attributes;
               prompt_variables :=
                 Agent.promptVariables rt (Agent.a_prompt_variables attributes);
             |} tr in
  fst (Agent.sessionPrompt rt langfuse attributes tr) = fst run
  /\ remoteCalls (snd (Agent.sessionPrompt rt langfuse attributes tr))
     = remoteCalls (snd run).
Proof.
  cbv zeta. unfold Agent.sessionPrompt, Eff.bind, Eff.emit, Eff.ret.
  destruct (generatePrompt _ _ _ _) as [[s|e] tr']; [|done].
  cbn [fst snd]. split; [done|].
  rewrite remoteCalls_app. cbn. by rewrite app_nil_r.
Qed.

End AgentFacts.

Import Chars Str StrFacts TrimFacts UrlFacts.
#[local] Open Scope js_scope.

(** X20.  A legacy table keeps [meta_data] when its values cannot be copied:
    if the server refuses the [update] that copies them, [initDb] throws, and
    the table still has every column it had, [meta_data] included.  The
    column is only dropped after the copy went through. *)
Theorem legacy_column_survives_a_failed_copy refuses (old : gset string) e :
  refuses Schema.MigrateMetaData = Some e ->
  "meta_data" ∈ old ->
  exists e' columns,
    Schema.initDb refuses (Some old) = (Throw e', Some columns)
    /\ old ⊆ columns.
Proof.
  intros Hrefuses Hmeta. unfold Schema.initDb.
  cbn [Schema.queries]. unfold Schema.query at 1.
  destruct (refuses Schema.CreateTable) as [e0|]; [by eexists _, _|].
  cbn [Schema.run].
  destruct (Schema.queries refuses _ (Some old)) as [result db'] eqn:Hadd.
  apply MigrationFacts.queries_add_keeps in Hadd as (columns & -> & Hsub).
  destruct result as [[]|e1]; [|by eexists _, _].
  unfold Schema.query at 1.
  destruct (refuses Schema.SelectMetaData) as [e2|]; [by eexists _, _|].
  cbn [Schema.run]. rewrite decide_True by by apply Hsub.
  cbn [Nat.ltb Nat.leb Schema.queries]. unfold Schema.query.
  rewrite Hrefuses. by eexists _, _.
Qed.

Lemma legacy_column_survives_a_failed_copy_witness :
  exists e' columns,
    Schema.initDb More.readOnly (Some More.legacy) = (Throw e', Some columns)
    /\ More.legacy ⊆ columns.
Proof.
  refine (legacy_column_survives_a_failed_copy More.readOnly More.legacy _
            eq_refl _).
  unfold More.legacy. rewrite list_to_set_app.
  apply elem_of_union_r, elem_of_list_to_set, list_elem_of_In. simpl. auto.
Defined.

(** X22.  [GET /api/conversations/...] looks up the text after the last
    slash of the path.  When that text is empty or white space the answer is
    400 and nothing is looked up; otherwise the answer is 500 when [initDb]
    or the lookup throws, 404 when there is no such row, and 200 with the row
    when there is. *)
Theorem conversation_is_looked_up_by_last_segment
    rt pg sv getConversationById req (table : gmap string Db.Row) dir id :
  Router.method req = "GET" ->
  Router.pathname req = dir +:+ String "/" id ->
  String.prefix "/api/conversations/" (Router.pathname req) = true ->
  all (fun c => negb (Ascii.eqb c "/")) id = true ->
  fst (Router.handle rt pg sv getConversationById req table)
  = if all is_space id then
      {| Router.code := 400; Router.payload := Router.Failed "Missing conversation id" |}
    else
      match Db.pg_init pg, getConversationById id with
      | Normal _, Normal (Some row) =>
          {| Router.code := 200; Router.payload := Router.Found row |}
      | Normal _, Normal None =>
          {| Router.code := 404; Router.payload := Router.Failed "Conversation not found" |}
      | _, _ =>
          {| Router.code := 500;
             Router.payload := Router.Failed "Failed to fetch conversation" |}
      end.
Proof.
  intros Hmethod Hpath Hprefix Hid. unfold Router.handle.
  rewrite Hmethod, Hprefix. cbn [String.eqb Ascii.eqb Bool.eqb andb].
  destruct (String.eqb_spec (Router.pathname req) "/health") as [Hhealth|_].
  { by rewrite Hhealth in Hprefix. }
  assert (is_empty (Router.pathname req) = false) as ->.
  { destruct (Router.pathname req); done. }
  cbn [negb andb fst]. unfold Router.getConversation, Router.lastPart.
  rewrite Hpath, split_last by done. rewrite is_empty_trim.
  destruct (all is_space id) eqn:Hblank.
  - by rewrite orb_true_r.
  - assert (is_empty id = false) as -> by by destruct id.
    cbn [orb]. destruct (Db.pg_init pg) as [[]|]; [|done]. simpl.
    by destruct (getConversationById id) as [[row|]|].
Qed.

(** The id of a path with one more segment is its last segment. *)
Lemma conversation_is_looked_up_by_last_segment_witness :
  fst (Router.handle Node.runtime ServerExamples.postgres ServerExamples.services
         (fun id => Normal (if String.eqb id "7c9e6679-7425-40de-944b-e07fc1f90ae7"
                            then Some More.stored else None))
         {| Router.method := "GET";
            Router.pathname := "/api/conversations/archive/7c9e6679-7425-40de-944b-e07fc1f90ae7";
            Router.text := "" |} ∅)
  = {| Router.code := 200;
       Router.payload := Router.Found More.stored |}.
Proof.
  exact (conversation_is_looked_up_by_last_segment Node.runtime
           ServerExamples.postgres ServerExamples.services _
           {| Router.method := "GET";
              Router.pathname := "/api/conversations/archive/7c9e6679-7425-40de-944b-e07fc1f90ae7";
              Router.text := "" |} ∅ "/api/conversations/archive"
           "7c9e6679-7425-40de-944b-e07fc1f90ae7"
           eq_refl eq_refl eq_refl eq_refl).
Defined.

(** X23.  The agent looks at [prompt_variables] before it calls
    [generatePrompt], which looks at them again.  Unless the attribute is
    JSON text that stands for a string, the first look changes nothing: the
    session's prompt is the prompt that [generatePrompt] gives for the
    attributes as they are, with the same calls of the prompt service. *)
Theorem agent_leaves_variables_to_generatePrompt rt langfuse attributes tr :
  ~ More.EncodedTwice rt (Agent.a_prompt_variables attributes) ->
  fst (Agent.sessionPrompt rt langfuse attributes tr)
  = fst (PromptManager.generatePrompt rt langfuse (More.detailsOf attributes) tr)
  /\ PromptManager.remoteCalls (snd (Agent.sessionPrompt rt langfuse attributes tr))
     = PromptManager.remoteCalls
         (snd (PromptManager.generatePrompt rt langfuse
                 (More.detailsOf attributes) tr)).
Proof.
  intros Honce.
  destruct (AgentFacts.sessionPrompt_generatePrompt rt langfuse attributes tr)
    as [-> ->].
  rewrite (AgentFacts.generatePrompt_ext rt langfuse _ (More.detailsOf attributes));
    try done.
  cbn [PromptManager.prompt_variables More.detailsOf].
  unfold Agent.promptVariables, PromptManager.normalizeVariables.
  destruct (Agent.a_prompt_variables attributes) as [| |b|n|s|l|m|f];
    cbn; rewrite ?andb_false_r, ?orb_true_r; cbn; try done.
  destruct (JSON_parse rt s) as [[| |b|n|s'|l|m|f]|] eqn:Hparse;
    cbn; rewrite ?orb_true_r; try done.
  exfalso. apply Honce. by exists s, s'.
Qed.

Lemma agent_leaves_variables_to_generatePrompt_witness :
  fst (Agent.sessionPrompt Node.runtime None More.participant [])
  = Normal "You are a.".
Proof.
  refine (eq_trans (proj1 (agent_leaves_variables_to_generatePrompt Node.runtime
                             None More.participant [] _)) _);
    [|reflexivity].
  intros (text & inner & [= <-] & Hparse). vm_compute in Hparse. discriminate.
Defined.

(** X24.  Variables that were encoded twice reach the prompt through the
    agent: when the attribute is JSON text for a string that is itself JSON
    text for an object, the session's prompt is the prompt for that object,
    where [generatePrompt], given the attribute as it is, works with the
    empty object. *)
Theorem variables_encoded_twice_are_decoded_twice
    rt langfuse attributes tr text inner variables :
  Agent.a_prompt_variables attributes = JStr text ->
  JSON_parse rt text = Normal (JStr inner) ->
  JSON_parse rt inner = Normal variables ->
  Spec.notObject variables = false ->
  fst (Agent.sessionPrompt rt langfuse attributes tr)
  = fst (PromptManager.generatePrompt rt langfuse
           (Spec.withVariables (More.detailsOf attributes) variables) tr)
  /\ PromptManager.generatePrompt rt langfuse (More.detailsOf attributes) tr
     = PromptManager.generatePrompt rt langfuse
         (Spec.withVariables (More.detailsOf attributes) (JObj ∅)) tr.
Proof.
  intros Hgiven Htext Hinner Hobj. split.
  - destruct (AgentFacts.sessionPrompt_generatePrompt rt langfuse attributes tr)
      as [-> _].
    f_equal. apply AgentFacts.generatePrompt_ext; try done.
    cbn [PromptManager.prompt_variables Spec.withVariables].
    rewrite Hgiven. unfold Agent.promptVariables. rewrite Htext.
    transitivity variables.
    + unfold PromptManager.normalizeVariables. cbn. rewrite Hinner.
      unfold Spec.notObject in Hobj. by rewrite Hobj.
    + revert Hobj. unfold Spec.notObject.
      destruct variables; cbn; rewrite ?orb_true_r; done.
  - apply AgentFacts.generatePrompt_ext; try done.
    cbn [PromptManager.prompt_variables Spec.withVariables More.detailsOf].
    rewrite Hgiven. unfold PromptManager.normalizeVariables. cbn.
    rewrite Htext. cbn. by rewrite orb_true_r.
Qed.

Lemma variables_encoded_twice_are_decoded_twice_witness :
  fst (Agent.sessionPrompt More.runtime None More.encodedTwice [])
  = Normal "You are a."
  /\ fst (PromptManager.generatePrompt More.runtime None
            (More.detailsOf More.encodedTwice) [])
     = Normal "You are .".
Proof.
  destruct (variables_encoded_twice_are_decoded_twice More.runtime None
              More.encodedTwice [] (More.literal Node.videoRequest)
              Node.videoRequest
              (JObj {[ "agent_name" := JStr "a"; "webhook_link" := JStr "w";
                       "conversation_type" := JStr "c";
                       "media_mode" := JStr "audio_video" ]})
              eq_refl eq_refl eq_refl eq_refl) as [Hagent Hdirect].
  split.
  - rewrite Hagent. reflexivity.
  - rewrite Hdirect. reflexivity.
Defined.

(** X25.  What the agent says first is never blank: [initial_content] of the
    variables, as a string without the white space around it, when that is
    not empty, and the default greeting otherwise; in particular when the
    variables hold no [initial_content]. *)
Theorem initial_content_is_never_blank rt prompt_variables s :
  Agent.initialContent rt prompt_variables = Normal s ->
  s <> ""
  /\ all is_space s = false
  /\ trim s = s
  /\ (forall given,
        Js.get rt prompt_variables "initial_content" = Normal given ->
        Js.truthy given = false ->
        s = Agent.defaultContent).
Proof.
  unfold Agent.initialContent. intros Hrun.
  assert (forall t,
            (if is_empty (trim t) then Agent.defaultContent else trim t) = s ->
            s <> "" /\ all is_space s = false /\ trim s = s) as Hshape.
  { intros t <-. rewrite is_empty_trim.
    destruct (all is_space t) eqn:Ht.
    - split; [done|]. split; reflexivity.
    - rewrite trim_idempotent. rewrite <- !is_empty_trim, trim_idempotent.
      rewrite is_empty_trim, Ht. split; [|done].
      intros H%trim_empty. congruence. }
  destruct (Js.nullish prompt_variables) eqn:Hnull.
  - cbn in Hrun. injection Hrun as <-. repeat split; try done.
  - destruct (Js.get rt prompt_variables "initial_content") as [given|]; [|done].
    cbn [cbind] in Hrun.
    destruct (Js.ToString (Js.or_else given (JStr ""))) as [t|] eqn:Ht; [|done].
    cbn [cbind] in Hrun. injection Hrun as Hs.
    destruct (Hshape t Hs) as (? & ? & ?). repeat split; try done.
    intros given' [= <-] Hfalsy. unfold Js.or_else in Ht. rewrite Hfalsy in Ht.
    injection Ht as <-. by rewrite <- Hs.
Qed.

Lemma initial_content_is_never_blank_witness :
  Agent.initialContent Node.runtime
    (JObj {[ "initial_content" := JStr "  Hi there.  " ]}) = Normal "Hi there."
  /\ trim "Hi there." = "Hi there.".
Proof.
  split; [reflexivity|].
  exact (proj1 (proj2 (proj2 (initial_content_is_never_blank Node.runtime
                                (JObj {[ "initial_content" := JStr "  Hi there.  " ]})
                                "Hi there." eq_refl)))).
Defined.
